(** * Sentinel Prime backend ([src/backend/main.py]): a shallow embedding

    The Python module is embedded function by function.  Text is a list of
    characters (code points below 256), Python integers are [Z], the
    in-memory [upload_history] dictionary is a [gmap], the [seen_urls] set
    a [gset], and raised exceptions are values of the type [exn]. *)

From Stdlib Require Import ZArith List Ascii String QArith Bool Permutation Sorted Lia.
From Stdlib Require Import DecimalString.
From stdpp Require Import gmap strings.
Import ListNotations.

Local Open Scope Z_scope.

(** ** Python [str] operations used by the module *)

Module PyStr.

Abbreviation text := (list ascii).

Definition str (s : string) : text := list_ascii_of_string s.

Definition len (s : text) : Z := Z.of_nat (length s).

(** [str.isspace] and the regular-expression class [\s] agree; below 256
    they hold of 9-13, 28-32, 133 and 160. *)
Definition is_space (c : ascii) : bool :=
  let n := N_of_ascii c in
  ((9 <=? n) && (n <=? 13) || (28 <=? n) && (n <=? 32) || (n =? 133) || (n =? 160))%N.

Definition eqc (a b : ascii) : bool := Ascii.eqb a b.

Definition nl : ascii := "010"%char.
Definition sp : ascii := " "%char.

(** [s.replace(a, b)] for single characters. *)
Definition replace_char (a b : ascii) (s : text) : text :=
  map (fun c => if eqc c a then b else c) s.

Fixpoint lstrip (s : text) : text :=
  match s with
  | c :: s' => if is_space c then lstrip s' else s
  | [] => []
  end.

Definition rstrip (s : text) : text := rev (lstrip (rev s)).

(** [s.strip()] *)
Definition strip (s : text) : text := rstrip (lstrip s).

(** Truthiness of a string or list: non-empty. *)
Definition truthy {A} (l : list A) : bool :=
  match l with [] => false | _ => true end.

(** [s.split()]: maximal runs of non-whitespace characters. *)
Fixpoint split_ws_go (cur : text) (s : text) : list text :=
  match s with
  | [] => if truthy cur then [rev cur] else []
  | c :: s' =>
      if is_space c
      then (if truthy cur then rev cur :: split_ws_go [] s' else split_ws_go [] s')
      else split_ws_go (c :: cur) s'
  end.

Definition split_ws (s : text) : list text := split_ws_go [] s.

(** [sep.join(parts)] *)
Fixpoint join (sep : text) (parts : list text) : text :=
  match parts with
  | [] => []
  | [p] => p
  | p :: ps => p ++ sep ++ join sep ps
  end.

(** Length of the leading run of characters satisfying [p]. *)
Fixpoint span_len (p : ascii -> bool) (s : text) : nat :=
  match s with
  | c :: s' => if p c then S (span_len p s') else O
  | [] => O
  end.

Definition remove_ws (s : text) : text := List.filter (fun c => negb (is_space c)) s.

(** [s.startswith(p)] *)
Fixpoint prefix_of (p s : text) : bool :=
  match p, s with
  | [], _ => true
  | a :: p', b :: s' => eqc a b && prefix_of p' s'
  | _ :: _, [] => false
  end.

(** [sub in s] *)
Fixpoint contains (sub s : text) : bool :=
  prefix_of sub s ||
  match s with
  | [] => false
  | _ :: s' => contains sub s'
  end.

(** [s.lower()] on code points below 256. *)
Definition lower_char (c : ascii) : ascii :=
  let n := N_of_ascii c in
  if ((65 <=? n) && (n <=? 90) || (192 <=? n) && (n <=? 214) || (216 <=? n) && (n <=? 222))%N
  then ascii_of_N (n + 32)
  else c.

Definition lower (s : text) : text := map lower_char s.

(** [s.split(sep)] for a non-empty separator: the pieces between the
    successive occurrences of [sep], found from the left. *)
Fixpoint split_on_go (sep : text) (skip : nat) (cur : text) (s : text) : list text :=
  match s with
  | [] => [rev cur]
  | c :: s' =>
      match skip with
      | S k => split_on_go sep k cur s'
      | O =>
          if prefix_of sep s
          then rev cur :: split_on_go sep (Nat.pred (length sep)) [] s'
          else split_on_go sep O (c :: cur) s'
      end
  end.

Definition split_on (sep : text) (s : text) : list text := split_on_go sep O [] s.

(** [s.split(sep, 1)]: the text before the first [sep], and the text after
    it when there is one. *)
Fixpoint split_once (sep : ascii) (s : text) : text * option text :=
  match s with
  | [] => ([], None)
  | c :: s' =>
      if eqc c sep then ([], Some s')
      else let '(before, after) := split_once sep s' in (c :: before, after)
  end.

Fixpoint lstrip_by (p : ascii -> bool) (s : text) : text :=
  match s with
  | c :: s' => if p c then lstrip_by p s' else s
  | [] => []
  end.

(** [s.strip(chars)] *)
Definition strip_chars (chars : text) (s : text) : text :=
  let p c := existsb (eqc c) chars in
  rev (lstrip_by p (rev (lstrip_by p s))).

End PyStr.

(** ** The segmenter: [split_into_chunks] *)

Module Segmenter.
Import PyStr.

Definition MAX_CHUNK_SIZE : Z := 400.

(** The alternatives of the pattern
    [(?<=[.!?])\s+|\.\s+|\?\s+|\!\s+|;\s+|\n+|\. |\? |\! ],
    each as the length of its match at the head of [s], where [prev] is the
    character just before (for the look-behind). *)

Definition one_or_more (p : ascii -> bool) (s : text) : option nat :=
  match span_len p s with
  | O => None
  | n => Some n
  end.

Definition alt_lookbehind (prev : option ascii) (s : text) : option nat :=
  match prev with
  | Some p =>
      if eqc p "." || eqc p "!" || eqc p "?" then one_or_more is_space s else None
  | None => None
  end.

Definition alt_char_spaces (d : ascii) (s : text) : option nat :=
  match s with
  | c :: s' => if eqc c d then option_map S (one_or_more is_space s') else None
  | [] => None
  end.

Definition alt_newlines (s : text) : option nat := one_or_more (fun c => eqc c nl) s.

Definition alt_char_blank (d : ascii) (s : text) : option nat :=
  match s with
  | c :: b :: _ => if eqc c d && eqc b sp then Some 2%nat else None
  | _ => None
  end.

Fixpoint first_match (alts : list (option nat)) : option nat :=
  match alts with
  | Some n :: _ => Some n
  | None :: rest => first_match rest
  | [] => None
  end.

(** The first alternative, in the order written, that matches here. *)
Definition match_delim (prev : option ascii) (s : text) : option nat :=
  first_match
    [ alt_lookbehind prev s;
      alt_char_spaces "." s; alt_char_spaces "?" s; alt_char_spaces "!" s;
      alt_char_spaces ";" s;
      alt_newlines s;
      alt_char_blank "." s; alt_char_blank "?" s; alt_char_blank "!" s ].

(** [re.split(delimiters, s)]: the scan looks for the leftmost match; the
    piece before it is emitted and the scan resumes after the match.
    [skip] counts the characters of the current match still to be passed,
    [cur] is the piece being collected, reversed. *)
Fixpoint re_split_go (prev : option ascii) (skip : nat) (cur : text) (s : text)
  : list text :=
  match s with
  | [] => [rev cur]
  | c :: s' =>
      match skip with
      | S k => re_split_go (Some c) k cur s'
      | O =>
          match match_delim prev s with
          | Some (S k) => rev cur :: re_split_go (Some c) k [] s'
          | _ => re_split_go (Some c) O (c :: cur) s'
          end
      end
  end.

Definition re_split (s : text) : list text := re_split_go None O [] s.

(** [[s.strip() for s in sentences if s.strip()]] *)
Definition clean (pieces : list text) : list text :=
  List.filter truthy (map strip pieces).

Definition normalize (t : text) : text := strip (replace_char nl sp t).

Definition sentences (t : text) : list text := clean (re_split (normalize t)).

(** [' '.join(parts) + '.'] *)
Definition emit (parts : list text) : text := join [sp] parts ++ ["."%char].

(** [if buf: chunks.append(' '.join(buf) + '.')] *)
Definition flush (chunks : list text) (buf : list text) : list text :=
  if truthy buf then chunks ++ [emit buf] else chunks.

(** One iteration of the inner loop over the words of an oversized
    sentence; the state is [(chunks, temp_chunk, temp_length)]. *)
Definition word_step (max_length : Z) (st : list text * list text * Z) (word : text)
  : list text * list text * Z :=
  let '(chunks, temp_chunk, temp_length) := st in
  let word_length := len word + 1 in
  if temp_length + word_length >? max_length
  then (flush chunks temp_chunk, [word], word_length)
  else (chunks, temp_chunk ++ [word], temp_length + word_length).

(** The oversized-sentence branch, up to its [continue]. *)
Definition split_long (max_length : Z) (chunks : list text) (sentence : text)
  : list text :=
  let '(chunks', temp_chunk, _) :=
    fold_left (word_step max_length) (split_ws sentence) (chunks, [], 0) in
  flush chunks' temp_chunk.

(** One iteration of the outer loop; the state is
    [(chunks, current_chunk, current_length)]. *)
Definition sentence_step (max_length : Z) (st : list text * list text * Z)
  (sentence : text) : list text * list text * Z :=
  let '(chunks, current_chunk, current_length) := st in
  let sentence_length := len sentence in
  if sentence_length >? max_length
  then (split_long max_length chunks sentence, current_chunk, current_length)
  else if current_length + sentence_length >? max_length
  then (flush chunks current_chunk, [sentence], sentence_length)
  else (chunks, current_chunk ++ [sentence], current_length + sentence_length).

Definition pack (max_length : Z) (sents : list text) : list text :=
  let '(chunks, current_chunk, _) :=
    fold_left (sentence_step max_length) sents ([], [], 0) in
  flush chunks current_chunk.

Definition split_into_chunks (t : text) (max_length : Z) : list text :=
  pack max_length (sentences t).

(** What the segmenter is specified to keep.  [body] is a chunk without
    the period the splitter put at its end; [flat] is what the chunks spell
    once those periods and all whitespace are ignored. *)

Definition body (chunk : text) : text := removelast chunk.

Definition flat (chunks : list text) : text :=
  remove_ws (concat (map body chunks)).

Definition is_delim (c : ascii) : bool :=
  eqc c "." || eqc c "?" || eqc c "!" || eqc c ";".

Definition starts_ws (s : text) : bool :=
  match s with c :: _ => is_space c | [] => false end.

Definition has_content (s : text) : bool :=
  existsb (fun c => negb (is_space c)) s.

(** The characters of [s] that are neither whitespace nor a delimiter
    character standing directly before whitespace with more text after. *)
Fixpoint kept (s : text) : text :=
  match s with
  | [] => []
  | c :: s' =>
      if is_space c then kept s'
      else if is_delim c && starts_ws s' && has_content s' then kept s'
      else c :: kept s'
  end.

(** The same, for a text whose trailing whitespace is already gone. *)
Fixpoint content (s : text) : text :=
  match s with
  | [] => []
  | c :: s' =>
      if is_space c then content s'
      else if is_delim c && starts_ws s' then content s'
      else c :: content s'
  end.

(** What a match at the head of [c :: s] can be: whitespace only, or one
    delimiter character and the whitespace after it. *)
Definition delim_shape (c : ascii) (s : text) (k : nat) : Prop :=
  (is_space c = true /\ (k <= span_len is_space s)%nat) \/
  (is_delim c = true /\ starts_ws s = true /\ (k <= span_len is_space s)%nat).

Definition nonempty (c : text) : Prop := c <> [].

End Segmenter.

(** ** Exceptions and results *)

Module Py.

Inductive exn : Type :=
| HTTPException (status_code : Z) (detail : string)  (* fastapi.HTTPException *)
| TimeoutException                                   (* httpx.TimeoutException *)
| RequestError                                       (* any other httpx.RequestError *)
| JSONDecodeError
| ValueError (msg : string)
| TypeError (msg : string)
| IndexError
| RetryError (last : exn)                            (* tenacity.RetryError *)
| NameError (name : string)                          (* a global that is not bound *)
| OverflowError (msg : string).

(** A call either returns a value or raises. *)
Inductive result (A : Type) : Type :=
| Ok (a : A)
| Raise (e : exn).
Arguments Ok {A} a.
Arguments Raise {A} e.

#[export] Instance result_ret : MRet result := fun A a => Ok a.
#[export] Instance result_bind : MBind result := fun A B f r =>
  match r with
  | Ok a => f a
  | Raise e => Raise e
  end.

(** The HTTP status the framework answers with when a handler raises
    [HTTPException]. *)
Definition http_status {A} (r : result A) : option Z :=
  match r with
  | Raise (HTTPException s _) => Some s
  | _ => None
  end.

(** Python [float]: a finite value, an infinity or NaN.  Every comparison
    with NaN is false. *)
Inductive pyfloat : Type :=
| Fin (q : Q)
| PosInf
| NegInf
| NaN.

Definition flt (a b : pyfloat) : bool :=
  match a, b with
  | NaN, _ | _, NaN => false
  | Fin x, Fin y => match (x ?= y)%Q with Lt => true | _ => false end
  | NegInf, (Fin _ | PosInf) => true
  | Fin _, PosInf => true
  | _, _ => false
  end.

Definition fgt (a b : pyfloat) : bool := flt b a.

Definition fle (a b : pyfloat) : bool :=
  match a, b with
  | NaN, _ | _, NaN => false
  | Fin x, Fin y => Qle_bool x y
  | NegInf, _ => true
  | _, PosInf => true
  | _, _ => false
  end.

(** [f"{n}"] for an integer. *)
Definition fmt_int (n : Z) : string := NilZero.string_of_int (Z.to_int n).

End Py.

(** ** Request models *)

Module Requests.
Import Py.

Definition DEFAULT_TIMEOUT : pyfloat := Fin 30.
Definition MAX_TIMEOUT : pyfloat := Fin 55.

(** [AnalyzeRequest.validate_timeout] *)
Definition validate_timeout (v : pyfloat) : pyfloat :=
  if flt v (Fin 1) || fgt v MAX_TIMEOUT then DEFAULT_TIMEOUT else v.

(** [1 <= v <= 55] *)
Definition in_range (v : pyfloat) : bool := fle (Fin 1) v && fle v (Fin 55).

End Requests.

(** ** The classifier gateway *)

Module Classifier.
Import Py.

Record SentinelResponse : Type := {
  status : string;
  message : string;
  type : option string
}.

Definition attack_types : gmap Z string :=
  list_to_map
    [ (1, "DoS Attack"); (2, "Probe Attack"); (3, "Remote Access Attack");
      (4, "Privilege Escalation Attack"); (5, "Data Exfiltration Attack");
      (6, "Brute Force Attack"); (7, "Man-in-the-Middle Attack") ]%string.

Definition descriptions : gmap string string :=
  list_to_map
    [ ("DoS Attack",
       "Detected a potential Denial of Service attack pattern. High volume of traffic attempting to overwhelm system resources.");
      ("Probe Attack",
       "Detected network probe activity. Possible port scanning or network mapping attempt.");
      ("Remote Access Attack",
       "Detected suspicious remote access attempt. Possible unauthorized access to system resources.");
      ("Privilege Escalation Attack",
       "Detected potential privilege escalation attempt. Possible unauthorized elevation of system access.");
      ("Data Exfiltration Attack",
       "Detected unusual data transfer patterns. Possible unauthorized data extraction attempt.");
      ("Brute Force Attack",
       "Detected repeated access attempts. Possible brute force attack on authentication.");
      ("Man-in-the-Middle Attack",
       "Detected suspicious traffic interception patterns. Possible man-in-the-middle attack.") ]%string.

Definition generic_description : string :=
  "Potential security threat detected with unusual traffic pattern.".

Definition get_attack_description (attack_type : string) : string :=
  default generic_description (descriptions !! attack_type).

(** [f"Unknown Attack (Type {prediction})"] *)
Definition unknown_attack (prediction : Z) : string :=
  "Unknown Attack (Type " +:+ fmt_int prediction +:+ ")".

Section WithModel.

(** The pre-trained model is opaque: [predict] is [rf_model.predict] on a
    one-row frame, [str_exn] is Python's [str(e)], and [frame_error n] the
    [ValueError] pandas raises for a row of [n] values under 10 column
    names. *)
Variable predict : list Q -> Z.
Variable str_exn : exn -> string.
Variable frame_error : nat -> exn.

Definition columns : list string :=
  [ "sbytes"; "rate"; "sttl"; "dttl"; "sload"; "dload"; "smean";
    "ct_state_ttl"; "ct_dst_src_ltm"; "ct_srv_dst" ]%string.

(** [pd.DataFrame([data], columns=columns)] *)
Definition data_frame (data : list Q) : result (list Q) :=
  if Nat.eqb (length data) (length columns) then Ok data
  else Raise (frame_error (length data)).

(** The body of the [try]. *)
Definition classify (data : list Q) : result SentinelResponse :=
  input_df ← data_frame data;
  let prediction := predict input_df in
  if prediction =? 0
  then mret {| status := "clean";
               message := "No threats detected in the traffic data.";
               type := None |}
  else
    let attack_type := default (unknown_attack prediction) (attack_types !! prediction) in
    let message := get_attack_description attack_type in
    mret {| status := "malicious"; message := message; type := Some attack_type |}.

(** [analyze_traffic_data]: whatever the body raises is reported as 500. *)
Definition analyze_traffic_data (data : list Q) : result SentinelResponse :=
  match classify data with
  | Ok r => Ok r
  | Raise e => Raise (HTTPException 500 ("Error analyzing traffic data: " +:+ str_exn e))
  end.

End WithModel.

End Classifier.

(** ** The upload endpoint [POST /api/sentinel/analyze] *)

Module Sentinel.
Import Py Classifier.

(** A decoded JSON document.  [JInt] is an integer literal, of any size;
    [JNum] a literal with a fraction or an exponent, by its value.  (The
    literals [NaN] and [Infinity], which [json.loads] also reads, and
    literals that overflow to infinity are not part of this type.) *)
#[warnings="-register-all"]
Inductive json : Type :=
| JNull
| JBool (b : bool)
| JInt (n : Z)
| JNum (q : Q)
| JStr (s : string)
| JArr (items : list json)
| JObj (fields : list (string * json)).

Record UploadFile : Type := {
  size : Z;
  content : string
}.

(** Time stamps are microseconds; [timedelta(minutes=1)] is [minute]. *)
Definition minute : Z := 60 * 1000 * 1000.

Definition size_limit : Z := 5 * 1024 * 1024.

(** The least integer that [float] does not convert: it rounds to
    [2^1024]. *)
Definition float_overflow : Z := 2 ^ 1024 - 2 ^ 970.

(** The float nearest to an integer, as an integer: 53 significant bits
    are kept, a tie goes to the even neighbour. *)
Definition nearest_double (n : Z) : Z :=
  let a := Z.abs n in
  let e := Z.log2 a - 52 in
  if e <=? 0 then n
  else
    let q := Z.shiftr a e in
    let r := a - Z.shiftl q e in
    let half := Z.shiftl 1 (e - 1) in
    let q' := if r <? half then q
              else if half <? r then q + 1
              else if Z.even q then q else q + 1 in
    Z.sgn n * Z.shiftl q' e.

(** [client_id in upload_history and current_time - last_upload < timedelta(minutes=1)] *)
Definition throttled (upload_history : gmap string Z) (client_id : string) (now : Z) : bool :=
  match upload_history !! client_id with
  | Some last_upload => now - last_upload <? minute
  | None => false
  end.

(** [username or "anonymous"] *)
Definition client_id_of (username : option string) : string :=
  match username with
  | Some u => if String.eqb u "" then "anonymous" else u
  | None => "anonymous"
  end.

Section WithModel.

Variable predict : list Q -> Z.
Variable str_exn : exn -> string.
Variable frame_error : nat -> exn.
(** [json.loads]; [None] stands for its [JSONDecodeError] (or another
    [ValueError] of the decoder).  [float_of_string]
    is [float(s)] on a string, [None] standing for [ValueError]. *)
Variable json_loads : string -> option json.
Variable float_of_string : string -> option Q.

(** [float(x)]: an integer whose nearest float would be beyond the
    largest one raises [OverflowError]. *)
Definition to_float (x : json) : result Q :=
  match x with
  | JInt n =>
      if Z.abs n <? float_overflow then Ok (inject_Z (nearest_double n))
      else Raise (OverflowError "int too large to convert to float")
  | JNum q => Ok q
  | JBool b => Ok (if b then 1 else 0)%Q
  | JStr s =>
      match float_of_string s with
      | Some q => Ok q
      | None => Raise (ValueError "could not convert string to float")
      end
  | JNull | JArr _ | JObj _ =>
      Raise (TypeError "float() argument must be a string or a real number")
  end.

(** [[float(x) for x in data]] *)
Fixpoint to_floats (data : list json) : result (list Q) :=
  match data with
  | [] => Ok []
  | x :: rest => q ← to_float x; qs ← to_floats rest; mret (q :: qs)
  end.

(** The body of the inner [try]. *)
Definition decode (content : string) : result (list Q) :=
  match json_loads content with
  | None => Raise JSONDecodeError
  | Some (JArr data) =>
      if Nat.eqb (length data) 10 then to_floats data
      else Raise (ValueError "Invalid data format")
  | Some _ => Raise (ValueError "Invalid data format")
  end.

Definition invalid_format : exn :=
  HTTPException 400
    "Invalid file format. Please upload a JSON file with the correct traffic data format.".

(** The inner [try ... except (json.JSONDecodeError, ValueError)]. *)
Definition read_traffic (content : string) : result (list Q) :=
  match decode content with
  | Raise JSONDecodeError | Raise (ValueError _) => Raise invalid_format
  | r => r
  end.

(** The outer [try ... except Exception as e]: every exception raised in
    the body, [HTTPException] included, is replaced. *)
Definition process_file (file : UploadFile) : result SentinelResponse :=
  match
    traffic_data ← read_traffic (content file);
    analyze_traffic_data predict str_exn frame_error traffic_data
  with
  | Ok r => Ok r
  | Raise e => Raise (HTTPException 500 ("Error processing file: " +:+ str_exn e))
  end.

(** [analyze_traffic], called at time [now] with the dictionary
    [upload_history]; returns the outcome and the dictionary afterwards. *)
Definition analyze_traffic (file : UploadFile) (username : option string) (now : Z)
  (upload_history : gmap string Z) : result SentinelResponse * gmap string Z :=
  if size file >? size_limit
  then (Raise (HTTPException 400
                 "File size too large. Please upload a file smaller than 5MB."),
        upload_history)
  else
    let client_id := client_id_of username in
    if throttled upload_history client_id now
    then (Raise (HTTPException 429
                   "Please wait a minute before uploading another file."),
          upload_history)
    else
      let upload_history := <[client_id := now]> upload_history in
      (process_file file, upload_history).

End WithModel.

(** A payload is malformed when it does not decode to ten numbers. *)
Definition malformed (json_loads : string -> option json)
  (float_of_string : string -> option Q) (content : string) : Prop :=
  forall data, decode json_loads float_of_string content <> Ok data.

End Sentinel.

(** ** Upstream requests with retry: [make_api_request] *)

Module Retry.
Import Py PyStr.

Definition MAX_RETRIES : nat := 3.

(** [is_cloudflare_challenge] *)
Definition is_cloudflare_challenge (response_text : text) : bool :=
  existsb (fun indicator => contains indicator (lower response_text))
    [ str "attention required! | cloudflare";
      str "please turn javascript on";
      str "please enable cookies";
      str "ray id:";
      str "cdn-cgi" ].

(** [should_retry_error] *)
Definition should_retry_error (exception : exn) : bool :=
  match exception with
  | HTTPException status_code _ =>
      existsb (Z.eqb status_code) [429; 503; 502; 500]
  | TimeoutException | RequestError => true
  | _ => false
  end.

(** The module reads the global [REQUEST_TIMEOUT] but binds it nowhere:
    evaluating it raises [NameError]. *)
Definition REQUEST_TIMEOUT : result pyfloat := Raise (NameError "REQUEST_TIMEOUT").

(** A response: [json_of] is what [response.json()] gives, [None]
    standing for [JSONDecodeError]. *)
Record Response : Type := {
  status_code : Z;
  text_of : text;
  json_of : option Sentinel.json
}.

(** What one call of [client.request] does. *)
Inductive transport : Type :=
| TimesOut                 (* raises httpx.TimeoutException *)
| Fails                    (* raises another httpx.RequestError *)
| Answers (r : Response).

Definition unavailable : string :=
  "The API service is currently unavailable. Please try again later.".

Definition restricted : string :=
  "API access is temporarily restricted. Please try again in a few minutes.".

(** [d.get(key)] on a decoded object: of several members with one key
    the last counts. *)
Fixpoint dict_get (key : string) (fields : list (string * Sentinel.json))
  : option Sentinel.json :=
  match fields with
  | [] => None
  | (k, v) :: rest =>
      match dict_get key rest with
      | Some v' => Some v'
      | None => if String.eqb k key then Some v else None
      end
  end.

(** [needle in error_msg]: a substring of a string, an item of a list, a
    key of an object; [None], a number or a boolean cannot be searched. *)
Definition mentions (needle : string) (error_msg : Sentinel.json) : result bool :=
  match error_msg with
  | Sentinel.JStr s => Ok (contains (str needle) (str s))
  | Sentinel.JArr items =>
      Ok (existsb (fun item => match item with
                               | Sentinel.JStr s => String.eqb s needle
                               | _ => false
                               end) items)
  | Sentinel.JObj fields => Ok (existsb (fun kv => String.eqb (fst kv) needle) fields)
  | Sentinel.JNull | Sentinel.JBool _ | Sentinel.JInt _ | Sentinel.JNum _ =>
      Raise (TypeError "argument is not iterable")
  end.

Section WithRepr.

(** [py_repr] is Python's [str] of a decoded value that is not a string. *)
Variable py_repr : Sentinel.json -> string.

(** [f"{error_msg}"] *)
Definition format_value (v : Sentinel.json) : string :=
  match v with
  | Sentinel.JStr s => s
  | _ => py_repr v
  end.

(** [handle_http_error] *)
Definition handle_http_error (r : Response) : result string :=
  match json_of r with
  | None =>
      if is_cloudflare_challenge (text_of r) then Ok restricted else Ok unavailable
  | Some (Sentinel.JObj error_response) =>
      match dict_get "error" error_response with
      | Some (Sentinel.JObj error) =>
          let error_msg := default (Sentinel.JStr "Unknown error") (dict_get "message" error) in
          found ← mentions "Authentication Error" error_msg;
          if (found : bool)
          then Raise (HTTPException 401
                 "API authentication failed. Please check your API key configuration.")
          else Ok ("API Error: " +:+ format_value error_msg)
      | _ => Ok unavailable
      end
  | Some _ => Ok unavailable
  end.

(** [response.raise_for_status()] raises unless the status is 2xx. *)
Definition is_success (status : Z) : bool := (200 <=? status) && (status <=? 299).

(** The body of [make_api_request]: one attempt.  The arguments of
    [client.request] are evaluated first, [REQUEST_TIMEOUT] among them;
    no handler of the [try] catches its [NameError]. *)
Definition attempt (t : transport) : result Response :=
  _ ← REQUEST_TIMEOUT;
  match t with
  | TimesOut =>
      Raise (HTTPException 504
        "Request timed out. The system is processing a high volume of requests.")
  | Fails =>
      Raise (HTTPException 503
        "Service temporarily unavailable. Please try again later.")
  | Answers r =>
      if existsb (Z.eqb (status_code r)) [403; 503] && is_cloudflare_challenge (text_of r)
      then Raise (HTTPException 503 restricted)
      else if is_success (status_code r) then Ok r
      else
        error_detail ← handle_http_error r;
        Raise (HTTPException (status_code r) error_detail)
  end.

(** [retry_if_exception_type((httpx.HTTPError, HTTPException))] *)
Definition retry_condition (e : exn) : bool :=
  match e with
  | HTTPException _ _ | TimeoutException | RequestError => true
  | _ => false
  end.

(** [wait_exponential(multiplier=1, min=2, max=4)] after attempt number
    [n], in seconds. *)
Definition wait_exponential (attempt_number : nat) : Z :=
  Z.max (Z.max 0 2) (Z.min (1 * 2 ^ (Z.of_nat attempt_number - 1)) 4).

(** What a decorated call did: how many attempts, the waits between them
    and how it ended. *)
Record outcome : Type := {
  attempts : nat;
  sleeps : list Z;
  final : result Response
}.

(** The retrying loop; [upstream n] is what the [n]-th request meets and
    [further] the number of attempts still allowed after this one.  An
    exception the condition does not hold of is raised as it is. *)
Fixpoint retrying (further : nat) (attempt_number : nat) (upstream : nat -> transport)
  (slept : list Z) : outcome :=
  match attempt (upstream attempt_number) with
  | Ok r => {| attempts := attempt_number; sleeps := slept; final := Ok r |}
  | Raise e =>
      if retry_condition e then
        match further with
        | O => {| attempts := attempt_number; sleeps := slept;
                  final := Raise (RetryError e) |}
        | S further' =>
            retrying further' (S attempt_number) upstream
              (slept ++ [wait_exponential attempt_number])
        end
      else {| attempts := attempt_number; sleeps := slept; final := Raise e |}
  end.

(** [make_api_request] under [stop_after_attempt(MAX_RETRIES)]. *)
Definition make_api_request (upstream : nat -> transport) : outcome :=
  retrying (Nat.pred MAX_RETRIES) 1 upstream [].

End WithRepr.

End Retry.

(** ** Python's stable sort *)

Module PySort.

Section Sort.
Context {A : Type}.
(** [before y x]: [y] sorts strictly before [x]. *)
Variable before : A -> A -> bool.

Fixpoint insert (x : A) (l : list A) : list A :=
  match l with
  | [] => [x]
  | y :: l' => if before y x then y :: insert x l' else x :: y :: l'
  end.

(** [list.sort]: elements that do not compare strictly keep their order. *)
Fixpoint sort (l : list A) : list A :=
  match l with
  | [] => []
  | x :: l' => insert x (sort l')
  end.

(** [a] may stand before [b]: [b] does not sort strictly before [a]. *)
Definition ordered (a b : A) : Prop := before b a = false.

End Sort.

End PySort.

(** ** Dispatching the chunks of [/api/analyze] *)

Module Dispatcher.
Import Py PyStr.

Record ChunkResult : Type := {
  chunk_index : Z;
  analysis : string
}.

Section WithUpstream.

(** [respond i chunk]: how the completion request for chunk [i] ends,
    retries included. *)
Variable respond : nat -> text -> result string.

(** [process_chunk] *)
Definition process_chunk (chunk : text) (chunk_index : nat) : result ChunkResult :=
  analysis ← respond chunk_index chunk;
  mret {| chunk_index := Z.of_nat chunk_index; analysis := analysis |}.

(** [asyncio.gather] over the tasks: task [i] writes its result into slot [i]
    when it completes; the first exception ends the gather.  [order] is
    the order in which the tasks complete. *)
Fixpoint complete (tasks : list (result ChunkResult)) (order : list nat)
  (slots : list (option ChunkResult)) : result (list (option ChunkResult)) :=
  match order with
  | [] => Ok slots
  | i :: rest =>
      match tasks !! i with
      | Some (Ok r) => complete tasks rest (<[i := Some r]> slots)
      | Some (Raise e) => Raise e
      | None => complete tasks rest slots
      end
  end.

Definition gather (tasks : list (result ChunkResult)) (order : list nat)
  : result (list ChunkResult) :=
  match complete tasks order (replicate (length tasks) None) with
  | Ok slots => Ok (omap id slots)
  | Raise e => Raise e
  end.

Definition by_chunk_index (y x : ChunkResult) : bool := chunk_index y <? chunk_index x.

(** The per-chunk results of [analyze_compliance], from [process_chunks]
    on. *)
Definition chunk_results (process_chunks : list text) (order : list nat)
  : result (list ChunkResult) :=
  let total_chunks := length process_chunks in
  if (1 <? total_chunks)%nat then
    let tasks := imap (fun i chunk => process_chunk chunk i) process_chunks in
    chunk_results ← gather tasks order;
    mret (PySort.sort by_chunk_index chunk_results)
  else
    match process_chunks with
    | [] => Raise IndexError
    | chunk :: _ => result ← process_chunk chunk 0; mret [result]
    end.

Definition all_analyses (process_chunks : list text) (order : list nat)
  : result (list string) :=
  results ← chunk_results process_chunks order;
  mret (map analysis results).

End WithUpstream.

End Dispatcher.

(** ** The response parser: [parse_compliance_analysis] *)

Module Parser.
Import PyStr.

Record Regulation : Type := {
  name : text;
  relevance : text;
  requirements : list text;
  priority : string
}.

Record Report : Type := {
  regulations : list Regulation;
  technicalRequirements : list text;
  nextSteps : list text
}.

Inductive section : Type := technical | steps.

(** [any(w in line for w in words)] *)
Definition any_in (words : list string) (line : text) : bool :=
  existsb (fun w => contains (str w) line) words.

(** [determine_priority] *)
Definition determine_priority (t : text) : string :=
  let text_lower := lower t in
  if any_in ["critical"; "high priority"; "urgent"; "immediate"]%string text_lower
  then "high"
  else if any_in ["moderate"; "medium priority"; "important"]%string text_lower
  then "medium"
  else "low".

(** The locals of the loop. *)
Record state : Type := {
  result : Report;
  current_section : option section;
  current_regulation : option Regulation
}.

Definition initial : state :=
  {| result := {| regulations := []; technicalRequirements := []; nextSteps := [] |};
     current_section := None;
     current_regulation := None |}.

(** [if current_regulation: result["regulations"].append(current_regulation)] *)
Definition append_regulation (r : Report) (reg : option Regulation) : Report :=
  match reg with
  | Some reg =>
      {| regulations := regulations r ++ [reg];
         technicalRequirements := technicalRequirements r;
         nextSteps := nextSteps r |}
  | None => r
  end.

Definition colon : ascii := ":"%char.

(** One iteration of the inner loop, for one line of a section. *)
Definition line_step (st : state) (raw : text) : state :=
  let line := strip raw in
  if negb (truthy line) then st
  else if contains (str "Technical Requirements:") line
          || contains (str "Technical Implementation:") line
  then {| result := result st; current_section := Some technical;
          current_regulation := current_regulation st |}
  else if contains (str "Next Steps:") line || contains (str "Recommended Steps:") line
  then {| result := result st; current_section := Some steps;
          current_regulation := current_regulation st |}
  else if any_in ["GDPR"; "CCPA"; "HIPAA"; "PCI DSS"; "SOC 2"; "ISO"]%string line
  then
    let '(before, after) := split_once colon line in
    {| result := append_regulation (result st) (current_regulation st);
       current_section := current_section st;
       current_regulation :=
         Some {| name := strip before;
                 relevance := match after with Some a => strip a | None => [] end;
                 requirements := [];
                 priority := determine_priority line |} |}
  else
    let item := strip_chars (str "- ") line in
    if negb (truthy item) then st
    else
      match current_section st, current_regulation st with
      | Some technical, _ =>
          {| result := {| regulations := regulations (result st);
                          technicalRequirements := technicalRequirements (result st) ++ [item];
                          nextSteps := nextSteps (result st) |};
             current_section := current_section st;
             current_regulation := current_regulation st |}
      | Some steps, _ =>
          {| result := {| regulations := regulations (result st);
                          technicalRequirements := technicalRequirements (result st);
                          nextSteps := nextSteps (result st) ++ [item] |};
             current_section := current_section st;
             current_regulation := current_regulation st |}
      | None, Some reg =>
          let '(_, after) := split_once colon line in
          let reg' :=
            match truthy (relevance reg), after with
            | false, Some a =>
                {| name := name reg; relevance := strip a;
                   requirements := requirements reg; priority := priority reg |}
            | _, _ =>
                {| name := name reg; relevance := relevance reg;
                   requirements := requirements reg ++ [item]; priority := priority reg |}
            end in
          {| result := result st; current_section := current_section st;
             current_regulation := Some reg' |}
      | None, None => st
      end.

(** The lines in the order the two loops visit them. *)
Definition lines_of (analysis : text) : list text :=
  flat_map (fun section => split_on [nl] (strip section)) (split_on [nl; nl] analysis).

Definition parse_compliance_analysis (analysis : text) : Report :=
  let st := fold_left line_step (lines_of analysis) initial in
  append_regulation (result st) (current_regulation st).

End Parser.

(** ** The policy ranker: the result loop and sort of [search_policies] *)

Module Ranker.
Import PyStr.

(** An entry of the upstream [results] array; an absent key is [None]. *)
Record SearchResult : Type := {
  r_title : option string;
  r_url : option string;
  r_snippet : option string;
  r_score : option Q
}.

Record PolicyResult : Type := {
  title : string;
  url : string;
  snippet : string;
  relevance_score : Q;
  domain : string;
  category : string
}.

(** Truthiness of [result.get(key)]: present and not empty. *)
Definition present (field : option string) : bool :=
  match field with
  | Some s => negb (String.eqb s "")
  | None => false
  end.

(** [categorize_domain] *)
Definition categorize_domain (domain : string) : string :=
  let domain_lower := lower (str domain) in
  let any (ds : list string) := existsb (fun d => contains (str d) domain_lower) ds in
  if any ["europa.eu"; "ec.europa.eu"; "edpb.europa.eu"]%string then "EU Domain"
  else if any ["gov"; "government"]%string then "Government Domain"
  else if any ["int"; "un.org"; "who.int"]%string then "International Organization"
  else if prefix_of (rev (str ".org")) (rev domain_lower) then "Non-Profit Organization"
  else "Other".

Section WithUrlparse.

(** [extract_domain]: [urlparse(url).netloc]. *)
Variable extract_domain : string -> string.

Definition format_result (result : SearchResult) : PolicyResult :=
  let url := default "" (r_url result) in
  let domain := extract_domain url in
  {| title := default "" (r_title result);
     url := url;
     snippet := default "" (r_snippet result);
     relevance_score := default 0%Q (r_score result);
     domain := domain;
     category := categorize_domain domain |}.

(** One iteration of the loop over [data.get("results", [])]; the state
    is [(results, seen_urls)]. *)
Definition collect_step (st : list PolicyResult * gset string) (result : SearchResult)
  : list PolicyResult * gset string :=
  let '(results, seen_urls) := st in
  let url := default "" (r_url result) in
  if present (r_url result) && negb (bool_decide (url ∈ seen_urls))
     && present (r_title result)
  then (results ++ [format_result result], {[url]} ∪ seen_urls)
  else st.

(** [key=lambda x: x["relevance_score"], reverse=True]: [y] goes strictly
    before [x] when its score is greater. *)
Definition by_score_desc (y x : PolicyResult) : bool :=
  match (relevance_score x ?= relevance_score y)%Q with
  | Lt => true
  | _ => false
  end.

(** The [policies] list of the response. *)
Definition policies (upstream : list SearchResult) : list PolicyResult :=
  let '(results, _) := fold_left collect_step upstream ([], ∅) in
  PySort.sort by_score_desc results.

(** The specification's reading of the loop: entries without a url or a
    title are dropped, and of the entries left with the same url only the
    first is kept. *)
Definition usable (r : SearchResult) : bool := present (r_url r) && present (r_title r).

Definition url_of (r : SearchResult) : string := default "" (r_url r).

Definition same_url (a b : SearchResult) : bool := String.eqb (url_of a) (url_of b).

Fixpoint keep_first (earlier : list SearchResult) (l : list SearchResult)
  : list SearchResult :=
  match l with
  | [] => []
  | r :: rest =>
      if existsb (fun e => same_url e r) earlier
      then keep_first (earlier ++ [r]) rest
      else r :: keep_first (earlier ++ [r]) rest
  end.

Definition survivors (upstream : list SearchResult) : list PolicyResult :=
  map format_result (keep_first [] (List.filter usable upstream)).

End WithUrlparse.

(** [seen] holds the urls of the usable entries met so far. *)
Definition tracks (seen : gset string) (earlier : list SearchResult) : Prop :=
  forall u, u ∈ seen <-> exists e, In e earlier /\ url_of e = u.

End Ranker.

(** ** Sample inputs used by the properties below *)

Module Samples.
Import Py PyStr.

(** Two texts for the default chunk size: a short sentence before one of
    100 words and no punctuation, and two sentences of 200 letters. *)
Definition note_then_long : text :=
  str "Note. " ++ concat (repeat (str "word ") 100).

Definition two_halves : text :=
  repeat "a"%char 200 ++ str ". " ++ repeat "b"%char 200.

(** A traffic record of ten zeros. *)
Definition sample_record : list Q := repeat 0%Q 10.

(** An upload that is not JSON, and a decoder that says so. *)
Definition bad_upload : Sentinel.UploadFile :=
  {| Sentinel.size := 8; Sentinel.content := "not json" |}.

Definition no_json : string -> option Sentinel.json := fun _ => None.
Definition ten_zeros : string -> option Sentinel.json :=
  fun _ => Some (Sentinel.JArr (repeat (Sentinel.JNum 0) 10)).
Definition no_float : string -> option Q := fun _ => None.
Definition class_zero : list Q -> Z := fun _ => 0.
Definition no_text : exn -> string := fun _ => ""%string.
Definition no_frame : nat -> exn := fun _ => ValueError "shape".

(** An upload of 6 MB. *)
Definition big_upload : Sentinel.UploadFile :=
  {| Sentinel.size := 6 * 1024 * 1024; Sentinel.content := "not json" |}.

(** An upstream response with an empty body, one whose error message is
    [null], and a stand-in for [str] of a decoded value. *)
Definition error_response (status : Z) : Retry.Response :=
  {| Retry.status_code := status; Retry.text_of := []; Retry.json_of := None |}.

Definition null_message : Retry.Response :=
  {| Retry.status_code := 400; Retry.text_of := [];
     Retry.json_of :=
       Some (Sentinel.JObj
               [("error"%string, Sentinel.JObj [("message"%string, Sentinel.JNull)])]) |}.

Definition no_repr : Sentinel.json -> string := fun _ => ""%string.

(** The parser example, its three lines separated by line breaks and by
    blank lines. *)
Definition sample_analysis : text :=
  str "GDPR: protects personal data" ++ [nl] ++
  str "Technical Requirements:" ++ [nl] ++
  str "- encryption at rest".

Definition sample_analysis_spaced : text :=
  str "GDPR: protects personal data" ++ [nl; nl] ++
  str "Technical Requirements:" ++ [nl; nl] ++
  str "- encryption at rest".

Definition sample_report : Parser.Report :=
  {| Parser.regulations :=
       [ {| Parser.name := str "GDPR";
            Parser.relevance := str "protects personal data";
            Parser.requirements := [];
            Parser.priority := "low" |} ];
     Parser.technicalRequirements := [str "encryption at rest"];
     Parser.nextSteps := [] |}.

(** Upstream results: a repeated url, an entry without a title, and two
    entries of equal score. *)
Definition sample_result (t u : string) (score : Q) : Ranker.SearchResult :=
  {| Ranker.r_title := if String.eqb t "" then None else Some t;
     Ranker.r_url := Some u; Ranker.r_snippet := None; Ranker.r_score := Some score |}.

Definition sample_results : list Ranker.SearchResult :=
  [ sample_result "A" "https://a.gov/x" (1 # 2);
    sample_result "" "https://b.org/y" (9 # 10);
    sample_result "C" "https://a.gov/x" (9 # 10);
    sample_result "D" "https://b.org/y" (2 # 4);
    sample_result "E" "https://c.int/z" (7 # 10) ]%string.

End Samples.

(** ** The endpoint [POST /api/analyze]: [analyze_compliance] *)

Module Compliance.
Import Py PyStr Segmenter Dispatcher.

Record AnalyzeRequest : Type := {
  technicalProcess : text;
  timeout : pyfloat
}.

(** [re.sub(r'\s+', ' ', text)]: every run of whitespace becomes one
    blank; [in_run] tells that the run has already been replaced. *)
Fixpoint collapse_go (in_run : bool) (s : text) : text :=
  match s with
  | [] => []
  | c :: s' =>
      if is_space c
      then (if in_run then collapse_go true s' else sp :: collapse_go true s')
      else c :: collapse_go false s'
  end.

Definition collapse_ws (s : text) : text := collapse_go false s.

Definition not_configured : exn :=
  HTTPException 500 "API configuration error: Missing required API keys or model name".

Definition too_long : exn :=
  HTTPException 400
    "Technical process description is too long. Please limit to 4000 characters.".

Definition nothing_analyzed : exn :=
  HTTPException 500 "Failed to analyze the technical process. Please try again.".

(** [process_chunk] over [make_api_request]: the request is sent with
    retries and the completion text is read from the response;
    [content_of] is [response.json()["choices"][0]["message"]["content"]],
    which may raise. *)
Definition request_completion (py_repr : Sentinel.json -> string)
  (upstream : nat -> Retry.transport)
  (content_of : Retry.Response -> result string) : result string :=
  match Retry.final (Retry.make_api_request py_repr upstream) with
  | Ok r => content_of r
  | Raise e => Raise e
  end.

Section WithUpstream.

(** [configured] is [all([OPENAI_API_KEY, OPENAI_MODEL_NAME])]; [respond]
    is how the request for a chunk ends, [order] the order in which the
    concurrent requests complete, [str_exn] Python's [str(e)]. *)
Variable configured : bool.
Variable respond : nat -> text -> result string.
Variable order : list nat.
Variable str_exn : exn -> string.

(** The text handed to the segmenter. *)
Definition prepare (technicalProcess : text) : text :=
  collapse_ws (strip (replace_char nl sp technicalProcess)).

(** The body of the [try]. *)
Definition analyze (request : AnalyzeRequest) : result Parser.Report :=
  let process_chunks := split_into_chunks (prepare (technicalProcess request)) MAX_CHUNK_SIZE in
  analyses ← all_analyses respond process_chunks order;
  if negb (truthy analyses) then Raise nothing_analyzed
  else
    let combined_analysis := join [nl; nl] (map str analyses) in
    mret (Parser.parse_compliance_analysis combined_analysis).

(** [analyze_compliance]: an [HTTPException] raised in the body is raised
    again as it is, any other exception becomes a 500.  (The branch for
    [asyncio.TimeoutError] has no counterpart: nothing modelled raises
    it.) *)
Definition analyze_compliance (request : AnalyzeRequest) : result Parser.Report :=
  if negb configured then Raise not_configured
  else if len (technicalProcess request) >? 4000 then Raise too_long
  else
    match analyze request with
    | Ok summary => Ok summary
    | Raise (HTTPException status_code detail) => Raise (HTTPException status_code detail)
    | Raise e =>
        Raise (HTTPException 500 ("An unexpected error occurred: " +:+ str_exn e))
    end.

End WithUpstream.

End Compliance.

(** ** The endpoint [POST /api/search-policies]: [search_policies] *)

Module Search.
Import Py PyStr Ranker.

Record PolicySearchRequest : Type := {
  query : string;
  domains : list string
}.

(** [PolicySearchRequest.validate_domains] *)
Definition validate_domains (v : list string) : result (list string) :=
  if truthy v then Ok v
  else Raise (ValueError "At least one domain must be specified").

(** [f"site:{domain[1:]}"] for a domain that starts with a dot, otherwise
    [f"site:.{domain}"]. *)
Definition site_filter (domain : string) : string :=
  match domain with
  | String "." rest => "site:" +:+ rest
  | _ => "site:." +:+ domain
  end.

Fixpoint join_strings (sep : string) (parts : list string) : string :=
  match parts with
  | [] => ""
  | [p] => p
  | p :: ps => p +:+ sep +:+ join_strings sep ps
  end.

(** [search_query] *)
Definition search_query (request : PolicySearchRequest) : string :=
  let domain_filter := join_strings " OR " (map site_filter (domains request)) in
  "(" +:+ query request +:+ ") (" +:+ domain_filter +:+ ")".

(** What the call of the search service does: it raises, or it answers
    with a status; [results] is what
    [response.json().get("results", [])] evaluates to, which may raise. *)
Inductive upstream : Type :=
| Raises (e : exn)
| Answers (status_code : Z) (results : result (list SearchResult)).

Record PolicyResponse : Type := {
  policies_of : list PolicyResult;
  query_of : string;
  domains_of : list string
}.

Section WithUpstream.

Variable configured : bool.                 (* TAVILY_API_KEY is set *)
Variable extract_domain : string -> string.
Variable str_exn : exn -> string.

(** The body of the [try]. *)
Definition search (request : PolicySearchRequest) (up : upstream) : result PolicyResponse :=
  match up with
  | Raises e => Raise e
  | Answers status_code results =>
      if negb (status_code =? 200)
      then Raise (HTTPException status_code "Failed to fetch policy information")
      else
        data ← results;
        mret {| policies_of := policies extract_domain data;
                query_of := query request;
                domains_of := domains request |}
  end.

(** [search_policies]: [except httpx.TimeoutException] first, then
    [except Exception], which also catches the [HTTPException] raised for
    a status other than 200. *)
Definition search_policies (request : PolicySearchRequest) (up : upstream)
  : result PolicyResponse :=
  if negb configured then Raise (HTTPException 500 "Tavily API key not configured")
  else
    match search request up with
    | Ok response => Ok response
    | Raise TimeoutException =>
        Raise (HTTPException 504 "Request timed out while searching for policies")
    | Raise e =>
        Raise (HTTPException 500 ("Failed to search for policies: " +:+ str_exn e))
    end.

End WithUpstream.

End Search.

(** ** Notions used to state the further properties *)

Module Notions.
Import Py PyStr Segmenter Parser.

(** A word as [str.split] gives them: not empty, no whitespace in it. *)
Definition word (w : text) : Prop :=
  w <> [] /\ forallb (fun c => negb (is_space c)) w = true.

(** The characters of the parts, and the length of the chunk they make:
    one more per part, for the blanks between them and the final period. *)
Fixpoint total_len (parts : list text) : Z :=
  match parts with
  | [] => 0
  | p :: ps => len p + total_len ps
  end.

Definition weight (parts : list text) : Z := total_len parts + Z.of_nat (length parts).

Definition ends_with_period (chunk : text) : Prop := last chunk = Some "."%char.

(** A chunk as the packing loops make them: some parts joined, which
    together are at most [ml] characters long unless the chunk is one
    word. *)
Definition packed (ml : Z) (chunk : text) : Prop :=
  exists parts,
    parts <> [] /\ chunk = emit parts /\ len chunk = weight parts /\
    (total_len parts <= ml \/ exists w, parts = [w] /\ word w).

(** A chunk of the word-by-word split: at most [ml] characters, period
    included, unless it is one word. *)
Definition word_packed (ml : Z) (chunk : text) : Prop :=
  len chunk <= ml \/ exists w, word w /\ chunk = w ++ ["."%char].

(** What the two packing loops keep true of their state. *)
Definition word_inv (ml : Z) (P : text -> Prop) (st : list text * list text * Z) : Prop :=
  let '(chunks, temp_chunk, temp_length) := st in
  Forall P chunks /\ Forall word temp_chunk /\ temp_length = weight temp_chunk /\
  (temp_chunk = [] \/ weight temp_chunk <= ml \/ exists w, temp_chunk = [w]).

Definition sentence_inv (ml : Z) (P : text -> Prop) (st : list text * list text * Z) : Prop :=
  let '(chunks, current_chunk, current_length) := st in
  Forall P chunks /\ current_length = total_len current_chunk /\
  (current_chunk = [] \/ total_len current_chunk <= ml).

(** The parser's reading of a line. *)
Definition is_header (line : text) : bool :=
  contains (str "Technical Requirements:") line
  || contains (str "Technical Implementation:") line
  || contains (str "Next Steps:") line
  || contains (str "Recommended Steps:") line.

Definition names_regulation (line : text) : bool :=
  any_in ["GDPR"; "CCPA"; "HIPAA"; "PCI DSS"; "SOC 2"; "ISO"]%string line.

(** A line that opens a regulation entry, and the name and priority the
    entry gets from it. *)
Definition starts_regulation (raw : text) : bool :=
  let line := strip raw in
  truthy line && negb (is_header line) && names_regulation line.

Definition entry_of (raw : text) : text * string :=
  let line := strip raw in
  (strip (fst (split_once colon line)), determine_priority line).

(** The regulations met so far, the one still open included. *)
Definition opened (st : state) : list Regulation :=
  regulations (result st) ++
  match current_regulation st with Some r => [r] | None => [] end.

Definition heading (r : Regulation) : text * string := (name r, priority r).

(** An item of the report comes from a line of the input, freed of its
    dashes and blanks, and is not empty. *)
Definition item_of (lines : list text) (item : text) : Prop :=
  item <> [] /\ exists raw, In raw lines /\ item = strip_chars (str "- ") (strip raw).

(** The entry a line opens: name and relevance from around its first
    colon, no requirements yet. *)
Definition fresh_regulation (raw : text) : Regulation :=
  let line := strip raw in
  let '(before, after) := split_once colon line in
  {| name := strip before;
     relevance := match after with Some a => strip a | None => [] end;
     requirements := [];
     priority := determine_priority line |}.

(** The last branch of the loop body, for a line that is neither a
    header nor the start of a regulation. *)
Definition item_step (st : state) (line : text) : state :=
  let item := strip_chars (str "- ") line in
  if negb (truthy item) then st
  else
    match current_section st, current_regulation st with
    | Some technical, _ =>
        {| result := {| regulations := regulations (result st);
                        technicalRequirements := technicalRequirements (result st) ++ [item];
                        nextSteps := nextSteps (result st) |};
           current_section := current_section st;
           current_regulation := current_regulation st |}
    | Some steps, _ =>
        {| result := {| regulations := regulations (result st);
                        technicalRequirements := technicalRequirements (result st);
                        nextSteps := nextSteps (result st) ++ [item] |};
           current_section := current_section st;
           current_regulation := current_regulation st |}
    | None, Some reg =>
        let '(_, after) := split_once colon line in
        let reg' :=
          match truthy (relevance reg), after with
          | false, Some a =>
              {| name := name reg; relevance := strip a;
                 requirements := requirements reg; priority := priority reg |}
          | _, _ =>
              {| name := name reg; relevance := relevance reg;
                 requirements := requirements reg ++ [item]; priority := priority reg |}
          end in
        {| result := result st; current_section := current_section st;
           current_regulation := Some reg' |}
    | None, None => st
    end.

(** What holds of the items of a state: every one comes from a line. *)
Definition items_from (lines : list text) (st : state) : Prop :=
  Forall (item_of lines) (technicalRequirements (result st)) /\
  Forall (item_of lines) (nextSteps (result st)) /\
  Forall (fun r => Forall (item_of lines) (requirements r)) (opened st).

(** An item of the report comes from a line of the input, freed of its
    dashes and blanks, and is not empty. *)
(** A message that [in] cannot search: [None], a number, a boolean. *)
Definition unsearchable (message : Sentinel.json) : bool :=
  match message with
  | Sentinel.JNull | Sentinel.JBool _ | Sentinel.JInt _ | Sentinel.JNum _ => true
  | _ => false
  end.

Definition empty_report : Report :=
  {| regulations := []; technicalRequirements := []; nextSteps := [] |}.

End Notions.



(* ================================================================== *)
(** * Properties *)


Module SegmenterFacts.
Import PyStr Segmenter.

#[local] Arguments is_space : simpl never.

Lemma remove_ws_app a b : remove_ws (a ++ b) = remove_ws a ++ remove_ws b.
Proof. unfold remove_ws. apply List.filter_app. Qed.

Lemma is_delim_not_space c : is_delim c = true -> is_space c = false.
Proof.
  unfold is_delim, eqc. intros H.
  repeat (apply orb_true_iff in H; destruct H as [H|H]);
    apply Ascii.eqb_eq in H; subst; reflexivity.
Qed.

Lemma span_len_nl_le s : (span_len (fun c => eqc c nl) s <= span_len is_space s)%nat.
Proof.
  induction s as [|c s IH]; simpl; [lia|].
  destruct (eqc c nl) eqn:E.
  - apply Ascii.eqb_eq in E. subst c. simpl. lia.
  - lia.
Qed.

Lemma one_or_more_S p s n :
  one_or_more p s = Some n -> n = span_len p s /\ (0 < n)%nat.
Proof.
  unfold one_or_more. destruct (span_len p s) eqn:E; [discriminate|].
  intros [= <-]. lia.
Qed.

Lemma span_len_pos_head p c s : (0 < span_len p (c :: s))%nat -> p c = true.
Proof. simpl. destruct (p c); [reflexivity | lia]. Qed.

Lemma span_len_cons_true p c s : p c = true -> span_len p (c :: s) = S (span_len p s).
Proof. simpl. intros ->. reflexivity. Qed.

Lemma alt_lookbehind_shape prev c s n :
  alt_lookbehind prev (c :: s) = Some n -> exists k, n = S k /\ delim_shape c s k.
Proof.
  unfold alt_lookbehind. destruct prev as [p|]; [|discriminate].
  destruct (eqc p "." || eqc p "!" || eqc p "?"); [|discriminate].
  intros H. apply one_or_more_S in H. destruct H as [-> Hpos].
  pose proof (span_len_pos_head _ _ _ Hpos) as Hc.
  rewrite (span_len_cons_true _ _ _ Hc). eexists; split; [reflexivity|].
  left. split; [assumption | lia].
Qed.

Lemma alt_char_spaces_shape d c s n :
  is_delim d = true ->
  alt_char_spaces d (c :: s) = Some n -> exists k, n = S k /\ delim_shape c s k.
Proof.
  intros Hd. unfold alt_char_spaces. destruct (eqc c d) eqn:E; [|discriminate].
  apply Ascii.eqb_eq in E. subst d.
  destruct (one_or_more is_space s) as [m|] eqn:Hm; [|discriminate].
  simpl. intros [= <-]. apply one_or_more_S in Hm. destruct Hm as [-> Hpos].
  eexists; split; [reflexivity|]. right. repeat split; [assumption| |lia].
  destruct s as [|b s]; [simpl in Hpos; lia|].
  simpl. apply (span_len_pos_head _ _ _ Hpos).
Qed.

Lemma alt_newlines_shape c s n :
  alt_newlines (c :: s) = Some n -> exists k, n = S k /\ delim_shape c s k.
Proof.
  unfold alt_newlines. intros H. apply one_or_more_S in H. destruct H as [-> Hpos].
  pose proof (span_len_pos_head _ _ _ Hpos) as Hc.
  rewrite (span_len_cons_true _ _ _ Hc). eexists; split; [reflexivity|].
  left. apply Ascii.eqb_eq in Hc. subst c. split; [reflexivity|].
  apply span_len_nl_le.
Qed.

Lemma alt_char_blank_shape d c s n :
  is_delim d = true ->
  alt_char_blank d (c :: s) = Some n -> exists k, n = S k /\ delim_shape c s k.
Proof.
  intros Hd. unfold alt_char_blank. destruct s as [|b s]; [discriminate|].
  destruct (eqc c d) eqn:E; [|discriminate].
  destruct (eqc b sp) eqn:E'; [|discriminate].
  apply Ascii.eqb_eq in E, E'. subst d b. simpl. intros [= <-].
  exists 1%nat. split; [reflexivity|]. right. repeat split; [assumption|].
  simpl. lia.
Qed.

Lemma match_delim_shape prev c s n :
  match_delim prev (c :: s) = Some n -> exists k, n = S k /\ delim_shape c s k.
Proof.
  unfold match_delim, first_match.
  destruct (alt_lookbehind prev (c :: s)) eqn:H0;
    [intros [= <-]; eapply alt_lookbehind_shape; eassumption|].
  destruct (alt_char_spaces "." (c :: s)) eqn:H1;
    [intros [= <-]; eapply alt_char_spaces_shape; [|eassumption]; reflexivity|].
  destruct (alt_char_spaces "?" (c :: s)) eqn:H2;
    [intros [= <-]; eapply alt_char_spaces_shape; [|eassumption]; reflexivity|].
  destruct (alt_char_spaces "!" (c :: s)) eqn:H3;
    [intros [= <-]; eapply alt_char_spaces_shape; [|eassumption]; reflexivity|].
  destruct (alt_char_spaces ";" (c :: s)) eqn:H4;
    [intros [= <-]; eapply alt_char_spaces_shape; [|eassumption]; reflexivity|].
  destruct (alt_newlines (c :: s)) eqn:H5;
    [intros [= <-]; eapply alt_newlines_shape; eassumption|].
  destruct (alt_char_blank "." (c :: s)) eqn:H6;
    [intros [= <-]; eapply alt_char_blank_shape; [|eassumption]; reflexivity|].
  destruct (alt_char_blank "?" (c :: s)) eqn:H7;
    [intros [= <-]; eapply alt_char_blank_shape; [|eassumption]; reflexivity|].
  destruct (alt_char_blank "!" (c :: s)) eqn:H8;
    [intros [= <-]; eapply alt_char_blank_shape; [|eassumption]; reflexivity|].
  discriminate.
Qed.

(** A delimiter character standing before whitespace always starts a match. *)
Lemma match_delim_complete prev c s :
  is_delim c = true -> starts_ws s = true ->
  exists k, match_delim prev (c :: s) = Some (S k).
Proof.
  intros Hd Hs.
  destruct (match_delim prev (c :: s)) as [n|] eqn:E.
  - destruct (match_delim_shape _ _ _ _ E) as [k [-> _]]. eauto.
  - exfalso. revert E. unfold match_delim, first_match.
    assert (Hsp : exists m, one_or_more is_space s = Some (S m)).
    { destruct s as [|b s]; [discriminate|]. simpl in Hs.
      unfold one_or_more. rewrite (span_len_cons_true _ _ _ Hs). eauto. }
    destruct Hsp as [m Hm].
    destruct (alt_lookbehind prev (c :: s)); [discriminate|].
    unfold alt_char_spaces. rewrite Hm. simpl.
    unfold is_delim in Hd.
    destruct (eqc c "."); [discriminate|].
    destruct (eqc c "?"); [discriminate|].
    destruct (eqc c "!"); [discriminate|].
    destruct (eqc c ";"); [discriminate|].
    discriminate.
Qed.

Lemma re_split_go_content s : forall prev skip cur,
  (skip <= span_len is_space s)%nat ->
  remove_ws (concat (re_split_go prev skip cur s)) = remove_ws (rev cur) ++ content s.
Proof.
  induction s as [|c s IH]; intros prev skip cur Hskip.
  - simpl. rewrite !app_nil_r. reflexivity.
  - destruct skip as [|k].
    + cbn [re_split_go].
      destruct (match_delim prev (c :: s)) as [[|k]|] eqn:E.
      * destruct (match_delim_shape _ _ _ _ E) as [k [Hk _]]. discriminate.
      * destruct (match_delim_shape _ _ _ _ E) as [k' [[= <-] Hshape]].
        cbn [concat]. rewrite remove_ws_app, IH.
        2:{ destruct Hshape as [[_ H]|[_ [_ H]]]; exact H. }
        simpl rev. f_equal. simpl.
        destruct Hshape as [[Hc _]|[Hd [Hs _]]].
        -- rewrite Hc. reflexivity.
        -- rewrite (is_delim_not_space _ Hd), Hd, Hs. reflexivity.
      * rewrite IH by lia. simpl rev. rewrite remove_ws_app, <- app_assoc. f_equal.
        simpl. destruct (is_space c) eqn:Hc; [reflexivity|].
        destruct (is_delim c) eqn:Hd; [|reflexivity].
        destruct (starts_ws s) eqn:Hs; [|reflexivity].
        destruct (match_delim_complete prev c s Hd Hs) as [k Hk]. congruence.
    + pose proof (span_len_pos_head is_space c s ltac:(lia)) as Hc.
      rewrite (span_len_cons_true _ _ _ Hc) in Hskip.
      cbn [re_split_go]. rewrite IH by lia. simpl. rewrite Hc. reflexivity.
Qed.

(** The split agrees with the interpreter on inputs that exercise the
    alternatives: the punctuation before the gap goes with the gap. *)
Example re_split_examples :
  (re_split (str "ab. cd") = [str "ab"; str "cd"]) /\
  (re_split (str "a. . b") = [str "a"; []; str "b"]) /\
  (re_split (str "a.. b") = [str "a."; str "b"]) /\
  (re_split (str "a ! b") = [str "a "; str "b"]) /\
  (re_split (str "a .b") = [str "a .b"]) /\
  (re_split (str ". a") = [[]; str "a"]).
Proof. repeat split. Qed.

Lemma re_split_content s : remove_ws (concat (re_split s)) = content s.
Proof. unfold re_split. rewrite re_split_go_content by lia. reflexivity. Qed.

(** *** Stripping and cleaning keep the non-whitespace characters *)

Lemma remove_ws_lstrip s : remove_ws (lstrip s) = remove_ws s.
Proof.
  induction s as [|c s IH]; [reflexivity|].
  simpl. destruct (is_space c) eqn:Hc; simpl; [exact IH|].
  rewrite Hc. reflexivity.
Qed.

Lemma remove_ws_rev s : remove_ws (rev s) = rev (remove_ws s).
Proof.
  induction s as [|c s IH]; [reflexivity|].
  simpl. rewrite remove_ws_app, IH. simpl.
  destruct (is_space c); simpl; [apply app_nil_r | reflexivity].
Qed.

Lemma remove_ws_strip s : remove_ws (strip s) = remove_ws s.
Proof.
  unfold strip, rstrip.
  rewrite remove_ws_rev, remove_ws_lstrip, remove_ws_rev, rev_involutive.
  apply remove_ws_lstrip.
Qed.

Lemma remove_ws_concat_clean pieces :
  remove_ws (concat (clean pieces)) = remove_ws (concat pieces).
Proof.
  unfold clean. induction pieces as [|p ps IH]; [reflexivity|].
  cbn [map List.filter concat].
  rewrite remove_ws_app, <- IH, <- (remove_ws_strip p).
  destruct (strip p) as [|a l]; cbn [truthy concat]; [reflexivity|].
  rewrite remove_ws_app. reflexivity.
Qed.

Lemma has_content_app a b : has_content (a ++ b) = has_content a || has_content b.
Proof. apply existsb_app. Qed.

Lemma has_content_rev s : has_content (rev s) = has_content s.
Proof.
  induction s as [|c s IH]; [reflexivity|].
  simpl. rewrite has_content_app, IH. simpl.
  rewrite orb_false_r. apply orb_comm.
Qed.

Lemma lstrip_app a b :
  lstrip (a ++ b) = if has_content a then lstrip a ++ b else lstrip b.
Proof.
  induction a as [|c a IH]; [reflexivity|].
  simpl. destruct (is_space c); simpl; [exact IH | reflexivity].
Qed.

Lemma rstrip_cons c s :
  rstrip (c :: s) =
  if has_content s then c :: rstrip s else if is_space c then [] else [c].
Proof.
  unfold rstrip. simpl rev. rewrite lstrip_app, has_content_rev.
  destruct (has_content s).
  - rewrite rev_app_distr. reflexivity.
  - simpl. destruct (is_space c); reflexivity.
Qed.

Lemma kept_no_content s : has_content s = false -> kept s = [].
Proof.
  induction s as [|c s IH]; [reflexivity|].
  simpl. destruct (is_space c); simpl; [exact IH | discriminate].
Qed.

Lemma starts_ws_rstrip s : has_content s = true -> starts_ws (rstrip s) = starts_ws s.
Proof.
  destruct s as [|b s]; [discriminate|].
  intros H. rewrite rstrip_cons.
  destruct (has_content s) eqn:Hs; [reflexivity|].
  simpl in H. rewrite Hs in H.
  destruct (is_space b) eqn:Hb; [discriminate|].
  reflexivity.
Qed.

Lemma content_rstrip s : content (rstrip s) = kept s.
Proof.
  induction s as [|c s IH]; [reflexivity|].
  rewrite rstrip_cons. simpl kept.
  destruct (has_content s) eqn:Hs.
  - simpl. rewrite IH, (starts_ws_rstrip _ Hs), andb_true_r. reflexivity.
  - rewrite andb_false_r, (kept_no_content _ Hs).
    destruct (is_space c) eqn:Hc; [reflexivity|].
    simpl. rewrite Hc, andb_false_r. reflexivity.
Qed.

Lemma kept_lstrip s : kept (lstrip s) = kept s.
Proof.
  induction s as [|c s IH]; [reflexivity|].
  simpl. destruct (is_space c) eqn:Hc; [exact IH|].
  simpl. rewrite Hc. reflexivity.
Qed.

Lemma replace_nl_space c :
  is_space (if eqc c nl then sp else c) = is_space c.
Proof.
  destruct (eqc c nl) eqn:E; [|reflexivity].
  apply Ascii.eqb_eq in E. subst c. reflexivity.
Qed.

Lemma replace_nl_keep c : is_space c = false -> (if eqc c nl then sp else c) = c.
Proof.
  intros Hc. destruct (eqc c nl) eqn:E; [|reflexivity].
  apply Ascii.eqb_eq in E. subst c. discriminate.
Qed.

Lemma has_content_replace s : has_content (replace_char nl sp s) = has_content s.
Proof.
  induction s as [|c s IH]; [reflexivity|].
  simpl. rewrite replace_nl_space, IH. reflexivity.
Qed.

Lemma starts_ws_replace s : starts_ws (replace_char nl sp s) = starts_ws s.
Proof. destruct s as [|c s]; [reflexivity|]. simpl. apply replace_nl_space. Qed.

Lemma kept_replace s : kept (replace_char nl sp s) = kept s.
Proof.
  induction s as [|c s IH]; [reflexivity|].
  change (replace_char nl sp (c :: s))
    with ((if eqc c nl then sp else c) :: replace_char nl sp s).
  simpl kept. rewrite replace_nl_space.
  destruct (is_space c) eqn:Hc; [exact IH|].
  rewrite (replace_nl_keep _ Hc), starts_ws_replace, has_content_replace, IH.
  reflexivity.
Qed.

Lemma content_normalize t : content (normalize t) = kept t.
Proof.
  unfold normalize, strip. rewrite content_rstrip, kept_lstrip. apply kept_replace.
Qed.

(** The sentences spell the kept characters, in order. *)
Lemma sentences_kept t : remove_ws (concat (sentences t)) = kept t.
Proof.
  unfold sentences. rewrite remove_ws_concat_clean, re_split_content.
  apply content_normalize.
Qed.

(** *** The packing loops *)

Lemma body_emit buf : body (emit buf) = join [sp] buf.
Proof. unfold body, emit. apply removelast_last. Qed.

Lemma remove_ws_join buf : remove_ws (join [sp] buf) = remove_ws (concat buf).
Proof.
  induction buf as [|p ps IH]; [reflexivity|].
  destruct ps as [|q ps].
  - simpl. rewrite app_nil_r. reflexivity.
  - change (join [sp] (p :: q :: ps)) with (p ++ [sp] ++ join [sp] (q :: ps)).
    change (concat (p :: q :: ps)) with (p ++ concat (q :: ps)).
    rewrite !remove_ws_app, IH. reflexivity.
Qed.

Lemma flat_app a b : flat (a ++ b) = flat a ++ flat b.
Proof. unfold flat. rewrite map_app, concat_app. apply remove_ws_app. Qed.

Lemma flat_flush chunks buf :
  flat (flush chunks buf) = flat chunks ++ remove_ws (concat buf).
Proof.
  unfold flush. destruct buf as [|p ps]; simpl truthy; cbv iota.
  - simpl. rewrite app_nil_r. reflexivity.
  - rewrite flat_app. f_equal. unfold flat. simpl. rewrite app_nil_r, body_emit.
    apply remove_ws_join.
Qed.

Lemma concat_snoc {A} (l : list (list A)) x : concat (l ++ [x]) = concat l ++ x.
Proof. rewrite concat_app. simpl. rewrite app_nil_r. reflexivity. Qed.

Lemma word_loop_flat ml words : forall chunks temp tl chunks' temp' tl',
  fold_left (word_step ml) words (chunks, temp, tl) = (chunks', temp', tl') ->
  flat chunks' ++ remove_ws (concat temp') =
  flat chunks ++ remove_ws (concat temp) ++ remove_ws (concat words).
Proof.
  induction words as [|w ws IH]; intros chunks temp tl chunks' temp' tl' H.
  - simpl in H. injection H as <- <- <-. simpl. rewrite app_nil_r. reflexivity.
  - simpl in H. destruct (tl + (len w + 1) >? ml).
    + apply IH in H. rewrite H, flat_flush. simpl. rewrite !remove_ws_app, app_nil_r.
      rewrite <- !app_assoc. reflexivity.
    + apply IH in H. rewrite H, concat_snoc. simpl. rewrite !remove_ws_app.
      rewrite <- !app_assoc. reflexivity.
Qed.

Lemma split_ws_go_flat s : forall cur,
  remove_ws (concat (split_ws_go cur s)) = remove_ws (rev cur) ++ remove_ws s.
Proof.
  induction s as [|c s IH]; intros cur.
  - simpl. destruct cur; simpl truthy; cbv iota.
    + reflexivity.
    + simpl concat. rewrite !app_nil_r. reflexivity.
  - simpl split_ws_go. destruct (is_space c) eqn:Hc.
    + destruct cur as [|d cur]; simpl truthy; cbv iota.
      * rewrite IH. simpl. rewrite Hc. reflexivity.
      * simpl concat. rewrite remove_ws_app, IH. simpl. rewrite Hc. reflexivity.
    + rewrite IH. simpl. rewrite remove_ws_app, Hc. simpl. rewrite Hc.
      rewrite <- app_assoc. reflexivity.
Qed.

Lemma split_long_flat ml chunks s :
  flat (split_long ml chunks s) = flat chunks ++ remove_ws s.
Proof.
  unfold split_long.
  destruct (fold_left (word_step ml) (split_ws s) (chunks, [], 0))
    as [[chunks' temp'] tl'] eqn:E.
  rewrite flat_flush, (word_loop_flat _ _ _ _ _ _ _ _ E).
  unfold split_ws. rewrite split_ws_go_flat. reflexivity.
Qed.

Lemma sentence_loop_perm ml sents : forall chunks cur cl chunks' cur' cl',
  fold_left (sentence_step ml) sents (chunks, cur, cl) = (chunks', cur', cl') ->
  Permutation (flat chunks' ++ remove_ws (concat cur'))
              (flat chunks ++ remove_ws (concat cur) ++ remove_ws (concat sents)).
Proof.
  induction sents as [|x xs IH]; intros chunks cur cl chunks' cur' cl' H.
  - simpl in H. injection H as <- <- <-. simpl. rewrite app_nil_r. reflexivity.
  - cbn [fold_left sentence_step] in H. cbn [concat]. rewrite remove_ws_app.
    destruct (len x >? ml).
    + apply IH in H. rewrite H, split_long_flat, <- !app_assoc.
      apply Permutation_app_head. rewrite !app_assoc.
      apply Permutation_app_tail, Permutation_app_comm.
    + destruct (cl + len x >? ml); apply IH in H; rewrite H.
      * rewrite flat_flush. cbn [concat]. rewrite app_nil_r, <- !app_assoc. reflexivity.
      * rewrite concat_snoc, remove_ws_app, <- !app_assoc. reflexivity.
Qed.

Lemma sentence_loop_ordered ml sents : forall chunks cur cl chunks' cur' cl',
  Forall (fun x => len x <= ml) sents ->
  fold_left (sentence_step ml) sents (chunks, cur, cl) = (chunks', cur', cl') ->
  flat chunks' ++ remove_ws (concat cur') =
  flat chunks ++ remove_ws (concat cur) ++ remove_ws (concat sents).
Proof.
  induction sents as [|x xs IH]; intros chunks cur cl chunks' cur' cl' Hall H.
  - simpl in H. injection H as <- <- <-. simpl. rewrite app_nil_r. reflexivity.
  - inversion Hall as [|? ? Hx Hxs]; subst.
    cbn [fold_left sentence_step] in H. cbn [concat]. rewrite remove_ws_app.
    replace (len x >? ml) with false in H
      by (symmetry; rewrite Z.gtb_ltb; apply Z.ltb_ge; exact Hx).
    destruct (cl + len x >? ml); apply (IH _ _ _ _ _ _ Hxs) in H; rewrite H.
    + rewrite flat_flush. cbn [concat]. rewrite app_nil_r, <- !app_assoc. reflexivity.
    + rewrite concat_snoc, remove_ws_app, <- !app_assoc. reflexivity.
Qed.

Lemma pack_perm ml sents : Permutation (flat (pack ml sents)) (remove_ws (concat sents)).
Proof.
  unfold pack.
  destruct (fold_left (sentence_step ml) sents ([], [], 0)) as [[c' cur'] cl'] eqn:E.
  rewrite flat_flush. apply sentence_loop_perm in E. exact E.
Qed.

Lemma pack_ordered ml sents :
  Forall (fun x => len x <= ml) sents -> flat (pack ml sents) = remove_ws (concat sents).
Proof.
  intros Hall. unfold pack.
  destruct (fold_left (sentence_step ml) sents ([], [], 0)) as [[c' cur'] cl'] eqn:E.
  rewrite flat_flush. apply (sentence_loop_ordered _ _ _ _ _ _ _ _ Hall) in E. exact E.
Qed.

(** *** Every chunk ends with the inserted period, so none is empty *)

Lemma flush_nonempty chunks buf :
  Forall nonempty chunks -> Forall nonempty (flush chunks buf).
Proof.
  intros H. unfold flush. destruct (truthy buf); [|exact H].
  apply Forall_app. split; [exact H|].
  constructor; [|constructor]. unfold nonempty, emit.
  intros E. apply app_eq_nil in E. destruct E as [_ E]. discriminate.
Qed.

Lemma word_loop_nonempty ml words : forall chunks temp tl,
  Forall nonempty chunks ->
  Forall nonempty (fst (fst (fold_left (word_step ml) words (chunks, temp, tl)))).
Proof.
  induction words as [|w ws IH]; intros chunks temp tl H; [exact H|].
  cbn [fold_left word_step].
  destruct (tl + (len w + 1) >? ml); apply IH; [apply flush_nonempty|]; exact H.
Qed.

Lemma split_long_nonempty ml chunks s :
  Forall nonempty chunks -> Forall nonempty (split_long ml chunks s).
Proof.
  intros H. unfold split_long.
  pose proof (word_loop_nonempty ml (split_ws s) chunks [] 0 H) as Hw.
  destruct (fold_left (word_step ml) (split_ws s) (chunks, [], 0)) as [[c' t'] l'].
  apply flush_nonempty. exact Hw.
Qed.

Lemma sentence_loop_nonempty ml sents : forall chunks cur cl,
  Forall nonempty chunks ->
  Forall nonempty (fst (fst (fold_left (sentence_step ml) sents (chunks, cur, cl)))).
Proof.
  induction sents as [|x xs IH]; intros chunks cur cl H; [exact H|].
  cbn [fold_left sentence_step].
  destruct (len x >? ml); [apply IH, split_long_nonempty, H|].
  destruct (cl + len x >? ml); apply IH; [apply flush_nonempty|]; exact H.
Qed.

Lemma chunks_nonempty t ml : Forall nonempty (split_into_chunks t ml).
Proof.
  unfold split_into_chunks, pack.
  pose proof (sentence_loop_nonempty ml (sentences t) [] [] 0 (List.Forall_nil _)) as H.
  destruct (fold_left (sentence_step ml) (sentences t) ([], [], 0)) as [[c' cur'] cl'].
  apply flush_nonempty. exact H.
Qed.

(** C1.  Chunks are never empty, but the other two guarantees of the
    segmenter do not hold of [split_into_chunks]: a sentence longer than
    [max_length] is split into chunks that are appended at once, before the
    sentences still waiting in [current_chunk], so ["aa"] comes out last
    although it came first; and the joining spaces and the final period are
    not counted, so ["aa bb."] has 6 characters for a [max_length] of 4
    although no word is longer than 4.  The same happens at the default
    size of 400. *)
Theorem split_into_chunks_order_and_bound :
  (forall t ml, Forall nonempty (split_into_chunks t ml)) /\
  (split_into_chunks (str "aa. bbb ccc") 5 = [str "bbb."; str "ccc."; str "aa."]) /\
  (split_into_chunks (str "aa. bb") 4 = [str "aa bb."]) /\
  (len (str "aa bb.") = 6) /\
  (last (split_into_chunks Samples.note_then_long MAX_CHUNK_SIZE) = Some (str "Note.")) /\
  (map len (split_into_chunks Samples.two_halves MAX_CHUNK_SIZE) = [402]).
Proof.
  split; [exact chunks_nonempty|].
  repeat split; vm_compute; reflexivity.
Qed.

(** C2, as the claim states it, fails: the semicolon of ["a; b"] is
    consumed by the split and appears in no chunk. *)
Lemma split_into_chunks_drops_delimiter :
  flat (split_into_chunks (str "a; b") MAX_CHUNK_SIZE) <> remove_ws (str "a; b").
Proof. vm_compute. discriminate. Qed.

(** C2, amended.  Ignoring the inserted final periods and whitespace, the
    chunks hold exactly the characters of the input that are neither
    whitespace nor a delimiter character ([.], [?], [!], [;]) standing
    directly before whitespace with more text after it; when no sentence is
    longer than [max_length] they are in their original order. *)
Theorem split_into_chunks_keeps_content (t : text) (ml : Z) :
  Permutation (flat (split_into_chunks t ml)) (kept t) /\
  (Forall (fun x => len x <= ml) (sentences t) ->
   flat (split_into_chunks t ml) = kept t).
Proof.
  unfold split_into_chunks. rewrite <- sentences_kept. split.
  - apply pack_perm.
  - apply pack_ordered.
Qed.

Lemma split_into_chunks_keeps_content_witness :
  Forall (fun x => len x <= 12) (sentences (str "Hello world. How are you?  Fine; thanks!")) /\
  flat (split_into_chunks (str "Hello world. How are you?  Fine; thanks!") 12)
  = str "HelloworldHowareyouFinethanks!".
Proof.
  assert (H : Forall (fun x => len x <= 12)
                (sentences (str "Hello world. How are you?  Fine; thanks!"))).
  { vm_compute. repeat constructor; discriminate. }
  split; [exact H|].
  rewrite (proj2 (split_into_chunks_keeps_content _ 12) H). vm_compute. reflexivity.
Defined.

End SegmenterFacts.

Module RequestFacts.
Import Py Requests.

Lemma not_lt_le_bool (x y : Q) :
  match (x ?= y)%Q with Lt => true | _ => false end = false -> Qle_bool y x = true.
Proof.
  intros H. apply Qle_bool_iff.
  destruct (x ?= y)%Q eqn:E; [| discriminate |].
  - apply Qeq_alt in E. rewrite E. apply Qle_refl.
  - apply Qgt_alt in E. apply Qlt_le_weak. exact E.
Qed.

(** Every timeout that is a number, infinite ones included, ends in
    [1, 55]. *)
Lemma validate_timeout_number v : v <> NaN -> in_range (validate_timeout v) = true.
Proof.
  intros Hv. destruct v as [q| | |]; try reflexivity; [|congruence].
  unfold validate_timeout, fgt, MAX_TIMEOUT, DEFAULT_TIMEOUT. cbn [flt].
  destruct (match (q ?= 1)%Q with Lt => true | _ => false end) eqn:Hlo;
    [reflexivity|].
  destruct (match (55 ?= q)%Q with Lt => true | _ => false end) eqn:Hhi;
    [reflexivity|].
  cbn [orb]. unfold in_range. cbn [fle].
  rewrite (not_lt_le_bool _ _ Hlo), (not_lt_le_bool _ _ Hhi). reflexivity.
Qed.

(** C10.  Values below 1 or above 55 are replaced by 30, but NaN is
    neither below 1 nor above 55 and is returned as it is: the effective
    timeout is then not in [1, 55]. *)
Theorem validate_timeout_nan :
  (validate_timeout (Fin 0) = Fin 30) /\
  (validate_timeout (Fin 56) = Fin 30) /\
  (validate_timeout (Fin 20) = Fin 20) /\
  (validate_timeout NaN = NaN) /\
  (in_range (validate_timeout NaN) = false).
Proof. repeat split. Qed.

End RequestFacts.

Module ClassifierFacts.
Import Py Classifier.

Lemma attack_types_outside p : p < 1 \/ 7 < p -> attack_types !! p = None.
Proof.
  intros Hp. unfold attack_types. cbn [list_to_map foldr uncurry fst snd].
  rewrite !lookup_insert_ne by lia. apply lookup_empty.
Qed.

Lemma descriptions_unknown p : descriptions !! unknown_attack p = None.
Proof.
  unfold descriptions, unknown_attack. cbn [list_to_map foldr uncurry fst snd].
  rewrite !lookup_insert_ne by (cbn; discriminate). apply lookup_empty.
Qed.

Lemma unknown_attack_nonempty p : unknown_attack p <> ""%string.
Proof. unfold unknown_attack. cbn. discriminate. Qed.

Section WithModel.
Variable predict : list Q -> Z.
Variable str_exn : exn -> string.
Variable frame_error : nat -> exn.

Lemma data_frame_ok data :
  length data = 10%nat -> data_frame frame_error data = Ok data.
Proof. intros H. unfold data_frame. rewrite H. reflexivity. Qed.

Lemma analyze_clean data :
  length data = 10%nat -> predict data = 0 ->
  analyze_traffic_data predict str_exn frame_error data =
  Ok {| status := "clean"; message := "No threats detected in the traffic data.";
        type := None |}.
Proof.
  intros Hlen Hp. unfold analyze_traffic_data, classify.
  rewrite (data_frame_ok _ Hlen). cbn [mbind result_bind]. rewrite Hp. reflexivity.
Qed.

Lemma analyze_known data p label :
  length data = 10%nat -> predict data = p -> p <> 0 ->
  attack_types !! p = Some label ->
  analyze_traffic_data predict str_exn frame_error data =
  Ok {| status := "malicious"; message := get_attack_description label;
        type := Some label |}.
Proof.
  intros Hlen Hp Hnz Hl. unfold analyze_traffic_data, classify.
  rewrite (data_frame_ok _ Hlen). cbn [mbind result_bind]. rewrite Hp.
  destruct (p =? 0) eqn:E; [apply Z.eqb_eq in E; contradiction|].
  rewrite Hl. reflexivity.
Qed.

Lemma analyze_unknown data p :
  length data = 10%nat -> predict data = p -> p < 0 \/ 7 < p ->
  analyze_traffic_data predict str_exn frame_error data =
  Ok {| status := "malicious"; message := generic_description;
        type := Some (unknown_attack p) |}.
Proof.
  intros Hlen Hp Hout. unfold analyze_traffic_data, classify.
  rewrite (data_frame_ok _ Hlen). cbn [mbind result_bind]. rewrite Hp.
  destruct (p =? 0) eqn:E; [apply Z.eqb_eq in E; lia|].
  rewrite attack_types_outside by lia. cbn [default].
  unfold get_attack_description. rewrite descriptions_unknown. reflexivity.
Qed.

End WithModel.

(** C7.  For a record of ten values: class 0 gives the clean verdict with
    no type; class 3 gives a malicious verdict of type "Remote Access
    Attack"; a class outside the table (below 0 or above 7, so 99 too)
    gives a malicious verdict whose type is the non-empty label
    "Unknown Attack (Type N)" with N the class id in decimal; none of
    these raises. *)
Theorem analyze_traffic_data_verdicts
  (predict : list Q -> Z) (str_exn : exn -> string) (frame_error : nat -> exn)
  (data : list Q) :
  length data = 10%nat ->
  (predict data = 0 ->
   analyze_traffic_data predict str_exn frame_error data =
   Ok {| status := "clean"; message := "No threats detected in the traffic data.";
         type := None |}) /\
  (predict data = 3 ->
   analyze_traffic_data predict str_exn frame_error data =
   Ok {| status := "malicious";
         message := "Detected suspicious remote access attempt. Possible unauthorized access to system resources.";
         type := Some "Remote Access Attack"%string |}) /\
  (predict data < 0 \/ 7 < predict data ->
   analyze_traffic_data predict str_exn frame_error data =
   Ok {| status := "malicious"; message := generic_description;
         type := Some ("Unknown Attack (Type " +:+ fmt_int (predict data) +:+ ")") |}
   /\ "Unknown Attack (Type " +:+ fmt_int (predict data) +:+ ")" <> ""%string) /\
  (predict data = 99 ->
   analyze_traffic_data predict str_exn frame_error data =
   Ok {| status := "malicious"; message := generic_description;
         type := Some "Unknown Attack (Type 99)"%string |}).
Proof.
  intros Hlen. split; [|split; [|split]].
  - intros Hp. apply analyze_clean; assumption.
  - intros Hp.
    rewrite (analyze_known predict str_exn frame_error data 3
               "Remote Access Attack"%string Hlen Hp);
      [reflexivity | lia | reflexivity].
  - intros Hp. split; [|apply unknown_attack_nonempty].
    apply analyze_unknown; [assumption | reflexivity | assumption].
  - intros Hp. rewrite (analyze_unknown _ _ _ _ 99 Hlen Hp) by lia. reflexivity.
Qed.

Lemma analyze_traffic_data_verdicts_witness :
  length Samples.sample_record = 10%nat /\
  analyze_traffic_data (fun _ => 99) Samples.no_text Samples.no_frame
    Samples.sample_record =
  Ok {| status := "malicious"; message := generic_description;
        type := Some "Unknown Attack (Type 99)"%string |}.
Proof.
  split; [reflexivity|].
  apply (analyze_traffic_data_verdicts (fun _ => 99) Samples.no_text Samples.no_frame
           Samples.sample_record); reflexivity.
Defined.

End ClassifierFacts.

Module SentinelFacts.
Import Py Classifier Sentinel.

Section WithModel.
Variable predict : list Q -> Z.
Variable str_exn : exn -> string.
Variable frame_error : nat -> exn.
Variable json_loads : string -> option json.
Variable float_of_string : string -> option Q.

Lemma read_traffic_malformed content :
  malformed json_loads float_of_string content ->
  exists e, read_traffic json_loads float_of_string content = Raise e.
Proof.
  intros Hbad. unfold read_traffic.
  destruct (decode json_loads float_of_string content) as [data|e] eqn:E.
  - exfalso. exact (Hbad data E).
  - destruct e; eauto.
Qed.

(** Whatever the inner handler raised, the outer one answers 500. *)
Lemma process_file_malformed file :
  malformed json_loads float_of_string (content file) ->
  exists detail,
    process_file predict str_exn frame_error json_loads float_of_string file =
    Raise (HTTPException 500 detail).
Proof.
  intros Hbad. destruct (read_traffic_malformed _ Hbad) as [e He].
  unfold process_file. rewrite He. cbn [mbind result_bind]. eauto.
Qed.

Lemma analyze_traffic_accepted file username now h :
  size file <= size_limit ->
  throttled h (client_id_of username) now = false ->
  analyze_traffic predict str_exn frame_error json_loads float_of_string
    file username now h =
  (process_file predict str_exn frame_error json_loads float_of_string file,
   <[client_id_of username := now]> h).
Proof.
  intros Hsize Hfree. unfold analyze_traffic.
  replace (size file >? size_limit) with false
    by (symmetry; rewrite Z.gtb_ltb; apply Z.ltb_ge; exact Hsize).
  rewrite Hfree. reflexivity.
Qed.

Lemma analyze_traffic_throttled file username now h :
  size file <= size_limit ->
  throttled h (client_id_of username) now = true ->
  analyze_traffic predict str_exn frame_error json_loads float_of_string
    file username now h =
  (Raise (HTTPException 429 "Please wait a minute before uploading another file."), h).
Proof.
  intros Hsize Hbusy. unfold analyze_traffic.
  replace (size file >? size_limit) with false
    by (symmetry; rewrite Z.gtb_ltb; apply Z.ltb_ge; exact Hsize).
  rewrite Hbusy. reflexivity.
Qed.

End WithModel.

(** C3.  An upload of accepted size from a client that is not throttled,
    whose payload is malformed, is answered with status 500: the 400
    raised for the payload is caught by the enclosing
    [except Exception] and replaced. *)
Theorem malformed_upload_status
  (predict : list Q -> Z) (str_exn : exn -> string) (frame_error : nat -> exn)
  (json_loads : string -> option json) (float_of_string : string -> option Q)
  (file : UploadFile) (username : option string) (now : Z) (h : gmap string Z) :
  size file <= size_limit ->
  throttled h (client_id_of username) now = false ->
  malformed json_loads float_of_string (content file) ->
  http_status
    (fst (analyze_traffic predict str_exn frame_error json_loads float_of_string
            file username now h)) = Some 500.
Proof.
  intros Hsize Hfree Hbad.
  rewrite analyze_traffic_accepted by assumption. cbn [fst].
  destruct (process_file_malformed predict str_exn frame_error _ _ _ Hbad) as [d ->].
  reflexivity.
Qed.

Lemma malformed_upload_status_witness :
  http_status
    (fst (analyze_traffic Samples.class_zero Samples.no_text Samples.no_frame
            Samples.no_json Samples.no_float Samples.bad_upload None 0 ∅)) = Some 500.
Proof.
  apply malformed_upload_status.
  - vm_compute. discriminate.
  - reflexivity.
  - intros data. vm_compute. discriminate.
Defined.

(** C9, as the claim states it, fails: the size check comes before the
    rate limiter, so a second upload of 6 MB less than a minute after a
    rejected one is answered 400, not 429. *)
Lemma oversized_second_upload_gets_400 :
  let first :=
    analyze_traffic Samples.class_zero Samples.no_text Samples.no_frame
      Samples.no_json Samples.no_float Samples.bad_upload (Some "ann"%string) 0 ∅ in
  let second :=
    analyze_traffic Samples.class_zero Samples.no_text Samples.no_frame
      Samples.no_json Samples.no_float Samples.big_upload (Some "ann"%string) 59000000
      (snd first) in
  (http_status (fst first) = Some 500) /\
  (snd first !! "ann"%string = Some 0) /\
  (http_status (fst second) = Some 400).
Proof. vm_compute. repeat split. Qed.

(** C9, amended.  The time stamp is stored before the payload is looked
    at: after an upload of accepted size that was rejected as malformed,
    the dictionary holds its time, and an upload of accepted size (at most
    5 MB) by the same client id less than a minute later is answered 429
    and leaves the dictionary as it is. *)
Theorem rejected_upload_is_counted
  (predict : list Q -> Z) (str_exn : exn -> string) (frame_error : nat -> exn)
  (json_loads : string -> option json) (float_of_string : string -> option Q)
  (f1 f2 : UploadFile) (u1 u2 : option string) (t1 t2 : Z) (h : gmap string Z) :
  size f1 <= size_limit ->
  size f2 <= size_limit ->
  throttled h (client_id_of u1) t1 = false ->
  malformed json_loads float_of_string (content f1) ->
  client_id_of u2 = client_id_of u1 ->
  t2 - t1 < minute ->
  let first :=
    analyze_traffic predict str_exn frame_error json_loads float_of_string f1 u1 t1 h in
  let second :=
    analyze_traffic predict str_exn frame_error json_loads float_of_string
      f2 u2 t2 (snd first) in
  (exists e, fst first = Raise e) /\
  snd first !! client_id_of u1 = Some t1 /\
  http_status (fst second) = Some 429 /\
  snd second = snd first.
Proof.
  intros Hs1 Hs2 Hfree Hbad Hsame Hsoon first second. subst first second.
  rewrite (analyze_traffic_accepted _ _ _ _ _ f1 u1 t1 h Hs1 Hfree). cbn [fst snd].
  assert (Hbusy : throttled (<[client_id_of u1 := t1]> h) (client_id_of u2) t2 = true).
  { unfold throttled. rewrite Hsame, lookup_insert_eq. apply Z.ltb_lt. exact Hsoon. }
  rewrite (analyze_traffic_throttled _ _ _ _ _ f2 u2 t2 _ Hs2 Hbusy). cbn [fst snd].
  repeat split.
  - destruct (process_file_malformed predict str_exn frame_error _ _ _ Hbad) as [d Hd].
    rewrite Hd. eauto.
  - apply lookup_insert_eq.
Qed.

Lemma rejected_upload_is_counted_witness :
  http_status
    (fst (analyze_traffic Samples.class_zero Samples.no_text Samples.no_frame
            Samples.no_json Samples.no_float Samples.bad_upload (Some "ann"%string) 59000000
            (snd (analyze_traffic Samples.class_zero Samples.no_text Samples.no_frame
                    Samples.no_json Samples.no_float Samples.bad_upload
                    (Some "ann"%string) 0 ∅)))) = Some 429.
Proof.
  apply (rejected_upload_is_counted Samples.class_zero Samples.no_text Samples.no_frame
           Samples.no_json Samples.no_float Samples.bad_upload Samples.bad_upload
           (Some "ann"%string) (Some "ann"%string) 0 59000000 ∅).
  - vm_compute. discriminate.
  - vm_compute. discriminate.
  - reflexivity.
  - intros data. vm_compute. discriminate.
  - reflexivity.
  - reflexivity.
Defined.

End SentinelFacts.

Module RetryFacts.
Import Py PyStr Retry.

(** C4.  No call retries anything.  Evaluating [REQUEST_TIMEOUT] raises
    [NameError] in the first attempt, before the request is sent, and the
    decorator's condition does not hold of a [NameError]: whatever the
    upstream would do (time out, be unreachable, answer 503), exactly one
    attempt is made, without a wait, and the [NameError] is raised.
    Besides, the decorator's condition holds of every [HTTPException],
    while [should_retry_error], which nothing calls, excludes 400, 401
    and 404. *)
Theorem make_api_request_never_retries :
  (forall py_repr upstream,
     make_api_request py_repr upstream =
     {| attempts := 1; sleeps := [];
        final := Raise (NameError "REQUEST_TIMEOUT") |}) /\
  (retry_condition (NameError "REQUEST_TIMEOUT") = false) /\
  (forall status detail, retry_condition (HTTPException status detail) = true) /\
  Forall (fun status => should_retry_error (HTTPException status unavailable) = false)
         [400; 401; 404].
Proof.
  split; [intros py_repr upstream; reflexivity|].
  split; [reflexivity|]. split; [intros status detail; reflexivity|].
  repeat constructor.
Qed.

End RetryFacts.

Module ParserFacts.
Import PyStr Parser.

(** C6.  The three lines of the example, separated by line breaks or by
    blank lines, give one regulation named GDPR with relevance
    "protects personal data" (no requirements, priority low), the single
    technical requirement "encryption at rest" and no next steps. *)
Theorem parse_compliance_analysis_sample :
  (parse_compliance_analysis Samples.sample_analysis = Samples.sample_report) /\
  (parse_compliance_analysis Samples.sample_analysis_spaced = Samples.sample_report).
Proof. split; vm_compute; reflexivity. Qed.

End ParserFacts.

Module PySortFacts.
Import PySort.

Section SortFacts.
Context {A : Type}.
Variable before : A -> A -> bool.

Lemma insert_perm x l : Permutation (insert before x l) (x :: l).
Proof.
  induction l as [|y l IH]; [reflexivity|].
  cbn [insert]. destruct (before y x); [|reflexivity].
  rewrite IH. apply perm_swap.
Qed.

Lemma sort_perm l : Permutation (sort before l) l.
Proof.
  induction l as [|x l IH]; [reflexivity|].
  cbn [sort]. rewrite insert_perm. constructor. exact IH.
Qed.

(** Stability: a class of elements that nothing outside it can overtake
    keeps its order. *)
Lemma insert_filter (P : A -> bool) x l :
  (forall y, P x = true -> before y x = true -> P y = false) ->
  List.filter P (insert before x l) = List.filter P (x :: l).
Proof.
  intros HP. induction l as [|y l IH]; [reflexivity|].
  cbn [insert]. destruct (before y x) eqn:Hyx; [|reflexivity].
  cbn [List.filter] in *. rewrite IH.
  destruct (P x) eqn:Hx; [|reflexivity].
  rewrite (HP y eq_refl Hyx). reflexivity.
Qed.

Lemma sort_filter (P : A -> bool) l :
  (forall x y, P x = true -> before y x = true -> P y = false) ->
  List.filter P (sort before l) = List.filter P l.
Proof.
  intros HP. induction l as [|x l IH]; [reflexivity|].
  cbn [sort]. rewrite insert_filter by apply HP.
  cbn [List.filter]. rewrite IH. reflexivity.
Qed.

(** [before] is a strict weak order. *)
Hypothesis asym : forall a b, before a b = true -> before b a = false.
Hypothesis cotrans :
  forall a b c, before a c = true -> before a b = true \/ before b c = true.

Lemma insert_sorted x l :
  StronglySorted (ordered before) l -> StronglySorted (ordered before) (insert before x l).
Proof.
  induction 1 as [|y l Hl IH Hy]; cbn [insert].
  - repeat constructor.
  - destruct (before y x) eqn:Hyx.
    + constructor; [exact IH|].
      apply (Permutation_Forall (Permutation_sym (insert_perm x l))).
      constructor; [|exact Hy]. apply asym, Hyx.
    + constructor; [constructor; assumption|].
      constructor; [exact Hyx|].
      apply List.Forall_forall. intros z Hz. unfold ordered.
      destruct (before z x) eqn:Hzx; [|reflexivity].
      destruct (cotrans _ y _ Hzx) as [Hzy|Hyx']; [|congruence].
      pose proof (proj1 (List.Forall_forall _ _) Hy z Hz) as Hord.
      unfold ordered in Hord. congruence.
Qed.

Lemma sort_sorted l : StronglySorted (ordered before) (sort before l).
Proof.
  induction l as [|x l IH]; [constructor|].
  cbn [sort]. apply insert_sorted, IH.
Qed.

End SortFacts.

Lemma StronglySorted_weaken {A} (R R' : A -> A -> Prop) l :
  (forall a b, R a b -> R' a b) -> StronglySorted R l -> StronglySorted R' l.
Proof.
  intros HR. induction 1 as [|x l Hl IH Hx]; constructor; [exact IH|].
  eapply List.Forall_impl; [|exact Hx]. intros b. apply HR.
Qed.

End PySortFacts.

Module DispatcherFacts.
Import Py PyStr Dispatcher.

(** C5.  No per-chunk result is ever produced.  With the requests made
    as [process_chunk] makes them, through [make_api_request], the
    dispatch of [n >= 1] chunks raises the [NameError] of the first request
    to run, whatever the completion order, and that of no chunk raises
    [IndexError]. *)
Theorem chunk_results_never_produced
  (py_repr : Sentinel.json -> string) (upstream : nat -> text -> nat -> Retry.transport)
  (content_of : Retry.Response -> result string)
  (chunks : list text) (order : list nat) :
  order ≡ₚ seq 0 (length chunks) ->
  chunk_results
    (fun i chunk => Compliance.request_completion py_repr (upstream i chunk) content_of)
    chunks order =
  Raise (match chunks with
         | [] => IndexError
         | _ :: _ => NameError "REQUEST_TIMEOUT"
         end).
Proof.
  intros Hperm. destruct chunks as [|c [|c' rest]]; [reflexivity | reflexivity |].
  unfold chunk_results. change (1 <? length (c :: c' :: rest))%nat with true. cbv iota.
  set (respond := fun (i : nat) (chunk : text) =>
         Compliance.request_completion py_repr (upstream i chunk) content_of).
  set (chunks := c :: c' :: rest) in *.
  destruct order as [|i order].
  { apply Permutation_length in Hperm. discriminate. }
  assert (Hi : (i < length chunks)%nat).
  { assert (Hin : i ∈ seq 0 (length chunks)) by (rewrite <- Hperm; left).
    apply elem_of_seq in Hin. lia. }
  destruct (lookup_lt_is_Some_2 chunks i Hi) as [ci Hci].
  unfold gather. cbn [complete]. rewrite list_lookup_imap, Hci. reflexivity.
Qed.

Lemma chunk_results_never_produced_witness :
  chunk_results
    (fun _ _ => Compliance.request_completion Samples.no_repr
                  (fun _ => Retry.Answers (Samples.error_response 200))
                  (fun _ => Ok ""%string))
    [str "one."; str "two."; str "three."] [2; 0; 1]%nat =
  Raise (NameError "REQUEST_TIMEOUT").
Proof.
  apply (chunk_results_never_produced Samples.no_repr
           (fun _ _ _ => Retry.Answers (Samples.error_response 200))
           (fun _ => Ok ""%string) [str "one."; str "two."; str "three."] [2; 0; 1]%nat).
  change (seq 0 (length [str "one."; str "two."; str "three."])) with [0; 1; 2]%nat.
  apply (perm_trans (l' := [0; 2; 1]%nat)); [apply perm_swap|].
  apply perm_skip, perm_swap.
Defined.

End DispatcherFacts.

Module RankerFacts.
Import PyStr Ranker.

Lemma score_before_iff y x :
  by_score_desc y x = true <-> (relevance_score x < relevance_score y)%Q.
Proof.
  unfold by_score_desc. destruct (Qlt_alt (relevance_score x) (relevance_score y)) as [H1 H2].
  destruct (relevance_score x ?= relevance_score y)%Q eqn:E; split;
    auto; try discriminate; intros H; apply H1 in H; discriminate.
Qed.

Lemma score_before_false_iff y x :
  by_score_desc y x = false <-> (relevance_score y <= relevance_score x)%Q.
Proof.
  split.
  - intros H. apply Qnot_lt_le. intros Hlt. apply score_before_iff in Hlt. congruence.
  - intros Hle. destruct (by_score_desc y x) eqn:E; [|reflexivity].
    apply score_before_iff in E. exfalso. exact (Qlt_not_le _ _ E Hle).
Qed.

Lemma score_asym a b : by_score_desc a b = true -> by_score_desc b a = false.
Proof.
  intros H. apply score_before_iff in H. apply score_before_false_iff. apply Qlt_le_weak, H.
Qed.

Lemma score_cotrans a b c :
  by_score_desc a c = true -> by_score_desc a b = true \/ by_score_desc b c = true.
Proof.
  intros H. apply score_before_iff in H.
  destruct (Qlt_le_dec (relevance_score b) (relevance_score a)) as [Hlt|Hle].
  - left. apply score_before_iff, Hlt.
  - right. apply score_before_iff. eapply Qlt_le_trans; eassumption.
Qed.

(** Results of one score are not overtaken by each other. *)
Lemma same_score_class q x y :
  Qeq_bool (relevance_score x) q = true -> by_score_desc y x = true ->
  Qeq_bool (relevance_score y) q = false.
Proof.
  intros Hx Hyx. apply Qeq_bool_iff in Hx. apply score_before_iff in Hyx.
  destruct (Qeq_bool (relevance_score y) q) eqn:Hy; [|reflexivity].
  apply Qeq_bool_iff in Hy. rewrite Hx, Hy in Hyx.
  exfalso. exact (Qlt_irrefl _ Hyx).
Qed.

Section WithUrlparse.
Variable extract_domain : string -> string.

Lemma url_format r : url (format_result extract_domain r) = url_of r.
Proof. reflexivity. Qed.

Lemma tracks_seen seen earlier r :
  tracks seen earlier ->
  bool_decide (url_of r ∈ seen) = existsb (fun e => same_url e r) earlier.
Proof.
  intros Ht. destruct (existsb (fun e => same_url e r) earlier) eqn:E.
  - apply bool_decide_eq_true_2. apply existsb_exists in E.
    destruct E as [e [He Hsame]]. apply Ht. exists e. split; [exact He|].
    apply String.eqb_eq, Hsame.
  - apply bool_decide_eq_false_2. intros Hin. apply Ht in Hin.
    destruct Hin as [e [He Hu]].
    assert (Hex : existsb (fun e => same_url e r) earlier = true).
    { apply existsb_exists. exists e. split; [exact He|]. apply String.eqb_eq, Hu. }
    congruence.
Qed.

Lemma tracks_add seen earlier r :
  tracks seen earlier -> tracks ({[url_of r]} ∪ seen) (earlier ++ [r]).
Proof.
  intros Ht u. rewrite elem_of_union, elem_of_singleton, (Ht u). split.
  - intros [->|[e [He Hu]]].
    + exists r. split; [apply in_or_app; right; left; reflexivity | reflexivity].
    + exists e. split; [apply in_or_app; left; exact He | exact Hu].
  - intros [e [He Hu]]. apply in_app_or in He. destruct He as [He|[<-|[]]].
    + right. exists e. split; assumption.
    + left. symmetry. exact Hu.
Qed.

Lemma tracks_duplicate seen earlier r :
  tracks seen earlier -> url_of r ∈ seen -> tracks seen (earlier ++ [r]).
Proof.
  intros Ht Hr u. rewrite (Ht u). split.
  - intros [e [He Hu]]. exists e. split; [apply in_or_app; left; exact He | exact Hu].
  - intros [e [He Hu]]. apply in_app_or in He. destruct He as [He|[<-|[]]].
    + exists e. split; assumption.
    + subst u. apply Ht, Hr.
Qed.

(** The loop computes the specification's survivors. *)
Lemma collect_refines l : forall acc seen earlier,
  tracks seen earlier ->
  fst (fold_left (collect_step extract_domain) l (acc, seen)) =
  acc ++ map (format_result extract_domain) (keep_first earlier (List.filter usable l)).
Proof.
  induction l as [|r l IH]; intros acc seen earlier Ht.
  - cbn. rewrite app_nil_r. reflexivity.
  - cbn [fold_left collect_step List.filter].
    fold (url_of r). unfold usable at 1.
    destruct (present (r_url r)) eqn:Hurl; cbn [andb].
    2:{ apply IH, Ht. }
    destruct (present (r_title r)) eqn:Htitle.
    2:{ rewrite andb_false_r. apply IH, Ht. }
    rewrite andb_true_r. cbn [keep_first].
    rewrite (tracks_seen _ _ r Ht).
    destruct (existsb (fun e => same_url e r) earlier) eqn:Hdup; cbn [negb].
    + apply IH. apply tracks_duplicate; [exact Ht|].
      rewrite <- (tracks_seen _ _ r Ht) in Hdup.
      apply bool_decide_eq_true_1 in Hdup. exact Hdup.
    + rewrite (IH _ _ (earlier ++ [r])) by (apply tracks_add, Ht).
      cbn [map]. rewrite <- app_assoc. reflexivity.
Qed.

Lemma tracks_empty : tracks ∅ [].
Proof.
  intros u. split.
  - intros H. apply not_elem_of_empty in H. contradiction.
  - intros [e [[] _]].
Qed.

Lemma policies_sort upstream :
  policies extract_domain upstream =
  PySort.sort by_score_desc (survivors extract_domain upstream).
Proof.
  unfold policies, survivors.
  pose proof (collect_refines upstream [] ∅ [] tracks_empty) as H.
  destruct (fold_left (collect_step extract_domain) upstream ([], ∅)) as [results seen].
  cbn [fst app] in H. rewrite H. reflexivity.
Qed.

(** Of the kept entries no two have the same url, and none has the url
    of an earlier entry. *)
Lemma keep_first_fresh l : forall earlier r,
  In r (keep_first earlier l) -> forall e, In e earlier -> url_of e <> url_of r.
Proof.
  induction l as [|x l IH]; intros earlier r Hr e He; [contradiction|].
  cbn [keep_first] in Hr.
  destruct (existsb (fun e => same_url e x) earlier) eqn:Hdup.
  - apply (IH _ _ Hr). apply in_or_app. left. exact He.
  - destruct Hr as [<-|Hr].
    + intros Heq.
      assert (Hex : existsb (fun e => same_url e x) earlier = true).
      { apply existsb_exists. exists e. split; [exact He|]. apply String.eqb_eq, Heq. }
      congruence.
    + apply (IH _ _ Hr). apply in_or_app. left. exact He.
Qed.

Lemma keep_first_nodup l : forall earlier,
  List.NoDup (map url_of (keep_first earlier l)).
Proof.
  induction l as [|x l IH]; intros earlier; [constructor|].
  cbn [keep_first].
  destruct (existsb (fun e => same_url e x) earlier); [apply IH|].
  cbn [map]. constructor; [|apply IH].
  intros Hin. apply in_map_iff in Hin. destruct Hin as [r [Hu Hr]].
  apply (keep_first_fresh _ _ _ Hr x); [|symmetry; exact Hu].
  apply in_or_app. right. left. reflexivity.
Qed.

Lemma survivors_nodup upstream :
  List.NoDup (map url (survivors extract_domain upstream)).
Proof.
  unfold survivors. rewrite map_map.
  rewrite (map_ext _ url_of) by apply url_format. apply keep_first_nodup.
Qed.

End WithUrlparse.

Example policies_example :
  map title (policies id Samples.sample_results) = ["E"; "A"; "D"]%string.
Proof. vm_compute. reflexivity. Qed.

(** C8.  The [policies] list is a rearrangement of the survivors (the
    entries with a url and a title, the first of each url only), holds no
    url twice, is non-increasing in [relevance_score], and lists the
    results of any one score in their upstream order. *)
Theorem policies_ranked (extract_domain : string -> string)
  (upstream : list SearchResult) :
  let out := policies extract_domain upstream in
  let kept := survivors extract_domain upstream in
  Permutation out kept /\
  List.NoDup (map url out) /\
  StronglySorted (fun a b => (relevance_score b <= relevance_score a)%Q) out /\
  (forall q,
     List.filter (fun r => Qeq_bool (relevance_score r) q) out =
     List.filter (fun r => Qeq_bool (relevance_score r) q) kept).
Proof.
  intros out kept. subst out kept. rewrite policies_sort.
  split; [|split; [|split]].
  - apply PySortFacts.sort_perm.
  - eapply Permutation_NoDup.
    + apply Permutation_map, Permutation_sym, PySortFacts.sort_perm.
    + apply survivors_nodup.
  - eapply PySortFacts.StronglySorted_weaken;
      [|apply (PySortFacts.sort_sorted by_score_desc score_asym score_cotrans)].
    intros a b H. apply score_before_false_iff. exact H.
  - intros q. apply PySortFacts.sort_filter. intros x y. apply same_score_class.
Qed.

End RankerFacts.

(** ** Further properties of the segmenter *)

Module SegmenterMore.
Import PyStr Segmenter Notions.

#[local] Arguments is_space : simpl never.

Lemma lstrip_no_content s : has_content s = false -> lstrip s = [].
Proof.
  induction s as [|c s IH]; [reflexivity|].
  cbn [has_content existsb lstrip]. intros H. apply orb_false_iff in H.
  destruct H as [Hc Hs]. apply negb_false_iff in Hc. rewrite Hc. apply IH, Hs.
Qed.

(** X1.  A text without any non-whitespace character, the empty text
    included, gives no chunk at all. *)
Theorem split_into_chunks_blank (t : text) (ml : Z) :
  has_content t = false -> split_into_chunks t ml = [].
Proof.
  intros H. unfold split_into_chunks, sentences, normalize, strip.
  rewrite lstrip_no_content by (rewrite SegmenterFacts.has_content_replace; exact H).
  reflexivity.
Qed.

Lemma split_into_chunks_blank_witness :
  split_into_chunks ([sp; nl; sp] ++ str "  ") MAX_CHUNK_SIZE = [].
Proof. apply split_into_chunks_blank. reflexivity. Defined.

(** *** What every chunk looks like *)

Lemma total_len_app a b : total_len (a ++ b) = total_len a + total_len b.
Proof. induction a as [|p a IH]; cbn [app total_len]; lia. Qed.

Lemma weight_app a b : weight (a ++ b) = weight a + weight b.
Proof. unfold weight. rewrite total_len_app, length_app. lia. Qed.

Lemma total_len_nonneg parts : 0 <= total_len parts.
Proof. induction parts as [|p ps IH]; cbn [total_len]; unfold len; lia. Qed.

Lemma len_app a b : len (a ++ b) = len a + len b.
Proof. unfold len. rewrite length_app. lia. Qed.

Lemma len_join parts : parts <> [] -> len (join [sp] parts) = weight parts - 1.
Proof.
  induction parts as [|p ps IH]; [congruence|]. intros _.
  destruct ps as [|q ps].
  - unfold weight. cbn. lia.
  - change (join [sp] (p :: q :: ps)) with (p ++ [sp] ++ join [sp] (q :: ps)).
    rewrite !len_app, IH by discriminate.
    unfold weight. cbn [total_len length]. change (len [sp]) with 1. lia.
Qed.

Lemma len_emit parts : parts <> [] -> len (emit parts) = weight parts.
Proof.
  intros H. unfold emit. rewrite len_app, len_join by exact H.
  change (len ["."%char]) with 1. lia.
Qed.

Lemma flush_all (P : text -> Prop) chunks buf :
  Forall P chunks -> (buf <> [] -> P (emit buf)) -> Forall P (flush chunks buf).
Proof.
  intros Hc Hb. unfold flush. destruct buf as [|p ps]; cbn [truthy]; [exact Hc|].
  apply Forall_app. split; [exact Hc|]. constructor; [|constructor].
  apply Hb. discriminate.
Qed.

Section Loops.
Variable ml : Z.
Variable P : text -> Prop.
Hypothesis word_chunk :
  forall parts, parts <> [] -> Forall word parts ->
    (weight parts <= ml \/ exists w, parts = [w]) -> P (emit parts).
Hypothesis sentence_chunk :
  forall parts, parts <> [] -> total_len parts <= ml -> P (emit parts).

Lemma word_step_inv st w :
  word w -> word_inv ml P st -> word_inv ml P (word_step ml st w).
Proof.
  destruct st as [[chunks temp] tl]. intros Hw (Hc & Ht & Hl & Hb).
  cbn [word_step]. destruct (tl + (len w + 1) >? ml) eqn:E.
  - repeat split.
    + apply flush_all; [exact Hc|]. intros Hne. apply word_chunk; [exact Hne | exact Ht|].
      destruct Hb as [->|Hb]; [congruence | exact Hb].
    + constructor; [exact Hw | constructor].
    + unfold weight. cbn. lia.
    + right. right. eauto.
  - rewrite Z.gtb_ltb in E. apply Z.ltb_ge in E. repeat split.
    + exact Hc.
    + apply Forall_app. split; [exact Ht|]. constructor; [exact Hw | constructor].
    + rewrite weight_app, Hl. unfold weight. cbn. lia.
    + right. left. rewrite weight_app, <- Hl. unfold weight. cbn. lia.
Qed.

Lemma word_loop_inv words : forall st,
  Forall word words -> word_inv ml P st ->
  word_inv ml P (fold_left (word_step ml) words st).
Proof.
  induction words as [|w ws IH]; intros st Hws Hst; [exact Hst|].
  inversion Hws as [|? ? Hw Hws']; subst. cbn [fold_left].
  apply IH; [exact Hws'|]. apply word_step_inv; assumption.
Qed.

Lemma forallb_rev {A} (f : A -> bool) l : forallb f (rev l) = forallb f l.
Proof.
  induction l as [|x l IH]; [reflexivity|].
  cbn [rev forallb]. rewrite forallb_app, IH. cbn. rewrite andb_true_r. apply andb_comm.
Qed.

Lemma split_ws_go_words s : forall cur,
  forallb (fun c => negb (is_space c)) cur = true -> Forall word (split_ws_go cur s).
Proof.
  induction s as [|c s IH]; intros cur Hcur.
  - cbn [split_ws_go]. destruct cur as [|d cur]; cbn [truthy]; [constructor|].
    constructor; [|constructor]. split.
    + cbn [rev]. intros E. apply app_eq_nil in E. destruct E as [_ E]. discriminate.
    + rewrite forallb_rev. exact Hcur.
  - cbn [split_ws_go]. destruct (is_space c) eqn:Hc.
    + destruct cur as [|d cur]; cbn [truthy]; [apply IH; reflexivity|].
      constructor; [|apply IH; reflexivity]. split.
      * cbn [rev]. intros E. apply app_eq_nil in E. destruct E as [_ E]. discriminate.
      * rewrite forallb_rev. exact Hcur.
    + apply IH. cbn [forallb]. rewrite Hc, Hcur. reflexivity.
Qed.

Lemma split_long_all chunks s :
  Forall P chunks -> Forall P (split_long ml chunks s).
Proof.
  intros Hc. unfold split_long.
  assert (H0 : word_inv ml P (chunks, [], 0)).
  { repeat split; [exact Hc | constructor | left; reflexivity]. }
  pose proof (word_loop_inv (split_ws s) _ (split_ws_go_words s [] eq_refl) H0) as H.
  destruct (fold_left (word_step ml) (split_ws s) (chunks, [], 0)) as [[c' t'] l'].
  destruct H as (Hc' & Ht' & _ & Hb).
  apply flush_all; [exact Hc'|]. intros Hne. apply word_chunk; [exact Hne | exact Ht'|].
  destruct Hb as [->|Hb]; [congruence | exact Hb].
Qed.

Lemma sentence_step_inv st x :
  sentence_inv ml P st -> sentence_inv ml P (sentence_step ml st x).
Proof.
  destruct st as [[chunks cur] cl]. intros (Hc & Hl & Hb).
  cbn [sentence_step]. destruct (len x >? ml) eqn:Ebig.
  - repeat split; [apply split_long_all; exact Hc | exact Hl | exact Hb].
  - rewrite Z.gtb_ltb in Ebig. apply Z.ltb_ge in Ebig.
    destruct (cl + len x >? ml) eqn:E.
    + repeat split.
      * apply flush_all; [exact Hc|]. intros Hne. apply sentence_chunk; [exact Hne|].
        destruct Hb as [->|Hb]; [congruence | exact Hb].
      * cbn. lia.
      * right. cbn. lia.
    + rewrite Z.gtb_ltb in E. apply Z.ltb_ge in E. repeat split.
      * exact Hc.
      * rewrite total_len_app, Hl. cbn. lia.
      * right. rewrite total_len_app, <- Hl. cbn. lia.
Qed.

Lemma sentence_loop_inv sents : forall st,
  sentence_inv ml P st -> sentence_inv ml P (fold_left (sentence_step ml) sents st).
Proof.
  induction sents as [|x xs IH]; intros st Hst; [exact Hst|].
  cbn [fold_left]. apply IH, sentence_step_inv, Hst.
Qed.

Lemma pack_all sents : Forall P (pack ml sents).
Proof.
  unfold pack.
  assert (H0 : sentence_inv ml P ([], [], 0)).
  { repeat split; [constructor | left; reflexivity]. }
  pose proof (sentence_loop_inv sents _ H0) as H.
  destruct (fold_left (sentence_step ml) sents ([], [], 0)) as [[c' cur'] cl'].
  destruct H as (Hc & _ & Hb).
  apply flush_all; [exact Hc|]. intros Hne. apply sentence_chunk; [exact Hne|].
  destruct Hb as [->|Hb]; [congruence | exact Hb].
Qed.

End Loops.

Lemma emit_ends_with_period parts : ends_with_period (emit parts).
Proof. unfold ends_with_period, emit. apply last_snoc. Qed.

(** X2.  Every chunk ends with the period the splitter appends. *)
Theorem chunks_end_with_period (t : text) (ml : Z) :
  Forall ends_with_period (split_into_chunks t ml).
Proof.
  unfold split_into_chunks. apply pack_all; intros; apply emit_ends_with_period.
Qed.

(** X3.  Every chunk is a non-empty list of parts joined by blanks and
    closed by a period, so its length is that of the parts plus one per
    part; the parts together are at most [max_length] characters long,
    unless the chunk is a single word. *)
Theorem chunks_packed (t : text) (ml : Z) :
  Forall (packed ml) (split_into_chunks t ml).
Proof.
  unfold split_into_chunks. apply pack_all.
  - intros parts Hne Hw Hb. exists parts.
    split; [exact Hne|]. split; [reflexivity|]. split; [apply len_emit, Hne|].
    destruct Hb as [Hb|[w ->]].
    + left. unfold weight in Hb. lia.
    + right. exists w. split; [reflexivity|]. inversion Hw; assumption.
  - intros parts Hne Hb. exists parts.
    split; [exact Hne|]. split; [reflexivity|]. split; [apply len_emit, Hne|].
    left. exact Hb.
Qed.

(** X4.  The word-by-word split of a sentence gives chunks of at most
    [max_length] characters, the period included, except for chunks that
    consist of one word. *)
Theorem split_long_bounded (ml : Z) (s : text) :
  Forall (word_packed ml) (split_long ml [] s).
Proof.
  apply split_long_all; [|constructor].
  intros parts Hne Hw Hb. destruct Hb as [Hb|[w ->]].
  - left. rewrite len_emit by exact Hne. exact Hb.
  - right. exists w. split; [inversion Hw; assumption | reflexivity].
Qed.

End SegmenterMore.

(** ** Further properties of the request validators *)

Module RequestMore.
Import Py Requests.

Lemma le_bool_not_lt (x y : Q) :
  Qle_bool x y = true -> match (y ?= x)%Q with Lt => true | _ => false end = false.
Proof.
  intros H. apply Qle_bool_iff in H.
  destruct (y ?= x)%Q eqn:E; try reflexivity.
  apply (proj2 (Qlt_alt y x)) in E. exfalso. exact (Qle_not_lt _ _ H E).
Qed.

(** X5.  Every timeout that is a number, the infinities included, is
    validated to a value in [1, 55]. *)
Theorem validate_timeout_in_range (v : pyfloat) :
  v <> NaN -> in_range (validate_timeout v) = true.
Proof.
  intros Hv. destruct v as [q| | |]; try reflexivity; [|congruence].
  unfold validate_timeout, fgt, MAX_TIMEOUT, DEFAULT_TIMEOUT. cbn [flt].
  destruct (match (q ?= 1)%Q with Lt => true | _ => false end) eqn:Hlo;
    [reflexivity|].
  destruct (match (55 ?= q)%Q with Lt => true | _ => false end) eqn:Hhi;
    [reflexivity|].
  cbn [orb]. unfold in_range. cbn [fle].
  rewrite (RequestFacts.not_lt_le_bool _ _ Hlo), (RequestFacts.not_lt_le_bool _ _ Hhi).
  reflexivity.
Qed.

Lemma validate_timeout_in_range_witness : in_range (validate_timeout PosInf) = true.
Proof. apply validate_timeout_in_range. discriminate. Defined.

(** X6.  A timeout in [1, 55], the two ends included, is returned
    unchanged. *)
Theorem validate_timeout_unchanged (v : pyfloat) :
  in_range v = true -> validate_timeout v = v.
Proof.
  unfold in_range. intros H. apply andb_true_iff in H. destruct H as [Hlo Hhi].
  destruct v as [q| | |]; try discriminate.
  unfold validate_timeout, fgt, MAX_TIMEOUT. cbn [flt fle] in *.
  rewrite (le_bool_not_lt _ _ Hlo), (le_bool_not_lt _ _ Hhi). reflexivity.
Qed.

Lemma validate_timeout_unchanged_witness : validate_timeout (Fin 55) = Fin 55.
Proof. apply validate_timeout_unchanged. reflexivity. Defined.

End RequestMore.

(** ** Further properties of the classifier gateway *)

Module ClassifierMore.
Import Py Classifier.

Section WithModel.
Variable predict : list Q -> Z.
Variable str_exn : exn -> string.
Variable frame_error : nat -> exn.

(** A record of ten values always gets a verdict, and the verdict is
    clean exactly for class 0. *)
Lemma verdict_of_ten data :
  length data = 10%nat ->
  exists verdict,
    analyze_traffic_data predict str_exn frame_error data = Ok verdict /\
    (status verdict = "clean"%string <-> predict data = 0) /\
    (status verdict = "malicious"%string <-> predict data <> 0) /\
    (type verdict = None <-> predict data = 0).
Proof.
  intros Hlen. unfold analyze_traffic_data, classify.
  rewrite (ClassifierFacts.data_frame_ok frame_error _ Hlen). cbn [mbind result_bind].
  destruct (predict data =? 0) eqn:E.
  - apply Z.eqb_eq in E. eexists. split; [reflexivity|]. cbn.
    repeat split; intros; try assumption; try reflexivity; try discriminate.
    contradiction.
  - apply Z.eqb_neq in E. eexists. split; [reflexivity|]. cbn.
    repeat split; intros; try assumption; try reflexivity; try discriminate;
      contradiction.
Qed.

End WithModel.

(** X7.  For a record of ten values the classifier gateway never raises:
    it returns a verdict whose status is "clean" exactly when the class is
    0 and "malicious" otherwise, and whose type is missing exactly when
    the class is 0. *)
Theorem analyze_traffic_data_total
  (predict : list Q -> Z) (str_exn : exn -> string) (frame_error : nat -> exn)
  (data : list Q) :
  length data = 10%nat ->
  exists verdict,
    analyze_traffic_data predict str_exn frame_error data = Ok verdict /\
    (status verdict = "clean"%string <-> predict data = 0) /\
    (status verdict = "malicious"%string <-> predict data <> 0) /\
    (type verdict = None <-> predict data = 0).
Proof. apply verdict_of_ten. Qed.

Lemma analyze_traffic_data_total_witness :
  exists verdict,
    analyze_traffic_data (fun _ => 5) Samples.no_text Samples.no_frame
      Samples.sample_record = Ok verdict /\
    (status verdict = "clean"%string <-> 5 = 0) /\
    (status verdict = "malicious"%string <-> 5 <> 0) /\
    (type verdict = None <-> 5 = 0).
Proof.
  apply (analyze_traffic_data_total (fun _ => 5) Samples.no_text Samples.no_frame
           Samples.sample_record).
  reflexivity.
Defined.

(** X8.  Each class of the table, 1 to 7, is reported under its own name
    and with its own description, never the generic one. *)
Theorem analyze_traffic_data_known
  (predict : list Q -> Z) (str_exn : exn -> string) (frame_error : nat -> exn)
  (data : list Q) :
  length data = 10%nat ->
  1 <= predict data <= 7 ->
  exists label,
    attack_types !! predict data = Some label /\
    analyze_traffic_data predict str_exn frame_error data =
    Ok {| status := "malicious"; message := get_attack_description label;
          type := Some label |} /\
    get_attack_description label <> generic_description.
Proof.
  intros Hlen Hp.
  assert (Hcases : predict data = 1 \/ predict data = 2 \/ predict data = 3 \/
                   predict data = 4 \/ predict data = 5 \/ predict data = 6 \/
                   predict data = 7) by lia.
  destruct Hcases as [E|[E|[E|[E|[E|[E|E]]]]]];
    (eexists; split; [rewrite E; reflexivity|]; split;
     [apply (ClassifierFacts.analyze_known predict str_exn frame_error data _ _ Hlen E);
      [lia | reflexivity]
     | vm_compute; discriminate]).
Qed.

Lemma analyze_traffic_data_known_witness :
  exists label,
    attack_types !! 6 = Some label /\
    analyze_traffic_data (fun _ => 6) Samples.no_text Samples.no_frame
      Samples.sample_record =
    Ok {| status := "malicious"; message := get_attack_description label;
          type := Some label |} /\
    get_attack_description label <> generic_description.
Proof.
  apply (analyze_traffic_data_known (fun _ => 6) Samples.no_text Samples.no_frame
           Samples.sample_record); [reflexivity | lia].
Defined.

End ClassifierMore.

(** ** Further properties of the upload endpoint *)

Module SentinelMore.
Import Py Classifier Sentinel.

Section WithModel.
Variable predict : list Q -> Z.
Variable str_exn : exn -> string.
Variable frame_error : nat -> exn.
Variable json_loads : string -> option json.
Variable float_of_string : string -> option Q.

Lemma to_floats_length data : forall qs,
  to_floats float_of_string data = Ok qs -> length qs = length data.
Proof.
  induction data as [|x rest IH]; intros qs H.
  - injection H as <-. reflexivity.
  - cbn [to_floats mbind result_bind] in H.
    destruct (to_float float_of_string x) as [q|e]; [|discriminate].
    destruct (to_floats float_of_string rest) as [qs'|e]; [|discriminate].
    injection H as <-. cbn [length]. rewrite (IH qs' eq_refl). reflexivity.
Qed.

(** What decodes, decodes to ten values. *)
Lemma decode_ten content data :
  decode json_loads float_of_string content = Ok data -> length data = 10%nat.
Proof.
  unfold decode. destruct (json_loads content) as [[| | | | |items|]|]; try discriminate.
  destruct (Nat.eqb (length items) 10) eqn:E; [|discriminate].
  intros H. apply to_floats_length in H. apply Nat.eqb_eq in E. congruence.
Qed.

Lemma read_traffic_ok content data :
  decode json_loads float_of_string content = Ok data ->
  read_traffic json_loads float_of_string content = Ok data.
Proof. intros H. unfold read_traffic. rewrite H. reflexivity. Qed.

(** The body ends with a verdict or with status 500, nothing else. *)
Lemma process_file_outcome file :
  (exists verdict,
     process_file predict str_exn frame_error json_loads float_of_string file = Ok verdict)
  \/
  (exists detail,
     process_file predict str_exn frame_error json_loads float_of_string file =
     Raise (HTTPException 500 detail)).
Proof.
  unfold process_file.
  destruct (read_traffic json_loads float_of_string (content file) ≫= _) as [v|e];
    [left | right]; eauto.
Qed.

Lemma size_test_false file : size file <= size_limit -> (size file >? size_limit) = false.
Proof. intros H. rewrite Z.gtb_ltb. apply Z.ltb_ge. exact H. Qed.

Lemma size_test_true file : size_limit < size file -> (size file >? size_limit) = true.
Proof. intros H. rewrite Z.gtb_ltb. apply Z.ltb_lt. exact H. Qed.

End WithModel.

(** X9.  An upload of accepted size from a client that is not throttled,
    whose payload decodes to ten numbers, gets a verdict (clean exactly
    for class 0), and its time is stored. *)
Theorem wellformed_upload_verdict
  (predict : list Q -> Z) (str_exn : exn -> string) (frame_error : nat -> exn)
  (json_loads : string -> option json) (float_of_string : string -> option Q)
  (file : UploadFile) (username : option string) (now : Z) (h : gmap string Z)
  (data : list Q) :
  size file <= size_limit ->
  throttled h (client_id_of username) now = false ->
  decode json_loads float_of_string (content file) = Ok data ->
  exists verdict,
    analyze_traffic predict str_exn frame_error json_loads float_of_string
      file username now h = (Ok verdict, <[client_id_of username := now]> h) /\
    (status verdict = "clean"%string <-> predict data = 0).
Proof.
  intros Hsize Hfree Hdata.
  rewrite SentinelFacts.analyze_traffic_accepted by assumption.
  unfold process_file. rewrite (read_traffic_ok _ _ _ _ Hdata). cbn [mbind result_bind].
  destruct (ClassifierMore.verdict_of_ten predict str_exn frame_error data
              (decode_ten _ _ _ _ Hdata)) as [verdict [Hv [Hclean _]]].
  rewrite Hv. exists verdict. split; [reflexivity | exact Hclean].
Qed.

Lemma wellformed_upload_verdict_witness :
  exists verdict,
    analyze_traffic Samples.class_zero Samples.no_text Samples.no_frame
      Samples.ten_zeros Samples.no_float Samples.bad_upload None 7 ∅ =
    (Ok verdict, <[client_id_of None := 7]> ∅) /\
    (status verdict = "clean"%string <-> Samples.class_zero Samples.sample_record = 0).
Proof.
  apply (wellformed_upload_verdict Samples.class_zero Samples.no_text Samples.no_frame
           Samples.ten_zeros Samples.no_float Samples.bad_upload None 7 ∅
           Samples.sample_record).
  - vm_compute. discriminate.
  - reflexivity.
  - reflexivity.
Defined.

(** X10.  The endpoint answers with a verdict or with status 400, 429 or
    500: 400 exactly when the file is larger than 5 MB, 429 exactly when
    it is not and the client is throttled. *)
Theorem analyze_traffic_statuses
  (predict : list Q -> Z) (str_exn : exn -> string) (frame_error : nat -> exn)
  (json_loads : string -> option json) (float_of_string : string -> option Q)
  (file : UploadFile) (username : option string) (now : Z) (h : gmap string Z) :
  let r := fst (analyze_traffic predict str_exn frame_error json_loads float_of_string
                  file username now h) in
  ((exists verdict, r = Ok verdict) \/ http_status r = Some 400 \/
   http_status r = Some 429 \/ http_status r = Some 500) /\
  (http_status r = Some 400 <-> size_limit < size file) /\
  (http_status r = Some 429 <->
   size file <= size_limit /\ throttled h (client_id_of username) now = true).
Proof.
  intros r. subst r.
  destruct (Z_lt_le_dec size_limit (size file)) as [Hbig|Hsmall].
  - unfold analyze_traffic. rewrite (size_test_true _ Hbig). cbn [fst http_status].
    split; [right; left; reflexivity|]. split; split; try discriminate; try tauto.
    intros [Hle _]. lia.
  - destruct (throttled h (client_id_of username) now) eqn:Hbusy.
    + rewrite SentinelFacts.analyze_traffic_throttled by assumption. cbn [fst http_status].
      split; [right; right; left; reflexivity|]. split; split; try discriminate; try tauto.
      intros Hlt. lia.
    + rewrite SentinelFacts.analyze_traffic_accepted by assumption. cbn [fst].
      destruct (process_file_outcome predict str_exn frame_error json_loads
                  float_of_string file) as [[v ->]|[d ->]]; cbn [http_status].
      * split; [left; eauto|]. split; split; try discriminate.
        -- intros Hlt. lia.
        -- intros [_ Hc]. discriminate.
      * split; [right; right; right; reflexivity|]. split; split; try discriminate.
        -- intros Hlt. lia.
        -- intros [_ Hc]. discriminate.
Qed.

(** X11.  An upload, whatever its outcome, leaves the entries of all other
    client ids in [upload_history] as they are. *)
Theorem other_clients_untouched
  (predict : list Q -> Z) (str_exn : exn -> string) (frame_error : nat -> exn)
  (json_loads : string -> option json) (float_of_string : string -> option Q)
  (file : UploadFile) (username : option string) (now : Z) (h : gmap string Z)
  (other : string) :
  other <> client_id_of username ->
  snd (analyze_traffic predict str_exn frame_error json_loads float_of_string
         file username now h) !! other = h !! other.
Proof.
  intros Hne. unfold analyze_traffic.
  destruct (size file >? size_limit); [reflexivity|].
  destruct (throttled h (client_id_of username) now); [reflexivity|].
  cbn [snd]. apply lookup_insert_ne. congruence.
Qed.

Lemma other_clients_untouched_witness :
  snd (analyze_traffic Samples.class_zero Samples.no_text Samples.no_frame
         Samples.no_json Samples.no_float Samples.bad_upload (Some "ann"%string) 5
         {[ "bob"%string := 1 ]}) !! "bob"%string
  = ({[ "bob"%string := 1 ]} : gmap string Z) !! "bob"%string.
Proof. apply other_clients_untouched. discriminate. Defined.

(** X12.  A full minute after an upload that was let through, the same
    client id is let through again and its stored time moves on. *)
Theorem accepted_again_after_a_minute
  (predict : list Q -> Z) (str_exn : exn -> string) (frame_error : nat -> exn)
  (json_loads : string -> option json) (float_of_string : string -> option Q)
  (f1 f2 : UploadFile) (u1 u2 : option string) (t1 t2 : Z) (h : gmap string Z) :
  size f1 <= size_limit ->
  size f2 <= size_limit ->
  throttled h (client_id_of u1) t1 = false ->
  client_id_of u2 = client_id_of u1 ->
  minute <= t2 - t1 ->
  let first :=
    analyze_traffic predict str_exn frame_error json_loads float_of_string f1 u1 t1 h in
  let second :=
    analyze_traffic predict str_exn frame_error json_loads float_of_string
      f2 u2 t2 (snd first) in
  fst second = process_file predict str_exn frame_error json_loads float_of_string f2 /\
  snd second !! client_id_of u1 = Some t2.
Proof.
  intros Hs1 Hs2 Hfree Hsame Hlate first second. subst first second.
  rewrite (SentinelFacts.analyze_traffic_accepted _ _ _ _ _ f1 u1 t1 h Hs1 Hfree).
  cbn [snd].
  assert (Hfree2 : throttled (<[client_id_of u1 := t1]> h) (client_id_of u2) t2 = false).
  { unfold throttled. rewrite Hsame, lookup_insert_eq. apply Z.ltb_ge. exact Hlate. }
  rewrite (SentinelFacts.analyze_traffic_accepted _ _ _ _ _ f2 u2 t2 _ Hs2 Hfree2).
  cbn [fst snd]. split; [reflexivity|]. rewrite Hsame. apply lookup_insert_eq.
Qed.

Lemma accepted_again_after_a_minute_witness :
  snd (analyze_traffic Samples.class_zero Samples.no_text Samples.no_frame
         Samples.no_json Samples.no_float Samples.bad_upload None 60000000
         (snd (analyze_traffic Samples.class_zero Samples.no_text Samples.no_frame
                 Samples.no_json Samples.no_float Samples.bad_upload
                 (Some "anonymous"%string) 0 ∅)))
    !! client_id_of (Some "anonymous"%string) = Some 60000000.
Proof.
  apply (accepted_again_after_a_minute Samples.class_zero Samples.no_text
           Samples.no_frame Samples.no_json Samples.no_float
           Samples.bad_upload Samples.bad_upload (Some "anonymous"%string) None
           0 60000000 ∅).
  - vm_compute. discriminate.
  - vm_compute. discriminate.
  - reflexivity.
  - reflexivity.
  - vm_compute. discriminate.
Defined.

(** X13.  An upload answered 400 or 429 leaves [upload_history] as it
    was: a refused upload does not move the client's stored time. *)
Theorem refused_upload_not_recorded
  (predict : list Q -> Z) (str_exn : exn -> string) (frame_error : nat -> exn)
  (json_loads : string -> option json) (float_of_string : string -> option Q)
  (file : UploadFile) (username : option string) (now : Z) (h : gmap string Z) :
  let r := analyze_traffic predict str_exn frame_error json_loads float_of_string
             file username now h in
  http_status (fst r) = Some 400 \/ http_status (fst r) = Some 429 ->
  snd r = h.
Proof.
  intros r. subst r. unfold analyze_traffic.
  destruct (size file >? size_limit); [reflexivity|].
  destruct (throttled h (client_id_of username) now); [reflexivity|].
  cbn [fst snd].
  destruct (process_file_outcome predict str_exn frame_error json_loads
              float_of_string file) as [[v ->]|[d ->]];
    cbn [http_status]; intros [H|H]; discriminate.
Qed.

Lemma refused_upload_not_recorded_witness :
  snd (analyze_traffic Samples.class_zero Samples.no_text Samples.no_frame
         Samples.no_json Samples.no_float Samples.bad_upload (Some "bob"%string) 5
         {[ "bob"%string := 1 ]}) = {[ "bob"%string := 1 ]}.
Proof.
  apply refused_upload_not_recorded. right. reflexivity.
Defined.

End SentinelMore.

(** ** Further properties of the upstream requests *)

Module RetryMore.
Import Py PyStr Retry.

(** X14.  When the error object of a response carries a message that is
    [null], a number or a boolean, [handle_http_error] raises [TypeError]:
    such a message cannot be searched for "Authentication Error". *)
Theorem handle_http_error_unsearchable
  (py_repr : Sentinel.json -> string) (r : Response)
  (fields error : list (string * Sentinel.json)) (message : Sentinel.json) :
  json_of r = Some (Sentinel.JObj fields) ->
  dict_get "error" fields = Some (Sentinel.JObj error) ->
  dict_get "message" error = Some message ->
  Notions.unsearchable message = true ->
  handle_http_error py_repr r = Raise (TypeError "argument is not iterable").
Proof.
  intros Hjson Herror Hmessage Hkind. unfold handle_http_error.
  rewrite Hjson, Herror, Hmessage. cbn [default].
  destruct message; try discriminate; reflexivity.
Qed.

Lemma handle_http_error_unsearchable_witness :
  handle_http_error Samples.no_repr Samples.null_message =
  Raise (TypeError "argument is not iterable").
Proof.
  apply (handle_http_error_unsearchable Samples.no_repr Samples.null_message
           [("error"%string, Sentinel.JObj [("message"%string, Sentinel.JNull)])]
           [("message"%string, Sentinel.JNull)] Sentinel.JNull); reflexivity.
Defined.


(** *** Challenge pages *)

Lemma eqc_refl c : eqc c c = true.
Proof. apply Ascii.eqb_refl. Qed.

Lemma prefix_of_app m b : prefix_of m (m ++ b) = true.
Proof.
  induction m as [|c m IH]; [reflexivity|].
  cbn [app prefix_of]. rewrite eqc_refl, IH. reflexivity.
Qed.

Lemma contains_here m b : contains m (m ++ b) = true.
Proof. destruct (m ++ b) eqn:E; cbn [contains]; rewrite <- E, prefix_of_app; reflexivity. Qed.

Lemma contains_later m a s : contains m s = true -> contains m (a ++ s) = true.
Proof.
  intros H. induction a as [|c a IH]; [exact H|].
  cbn [app contains]. rewrite IH. apply orb_true_r.
Qed.

(** X19.  A body in which one of the five markers occurs anywhere, in
    any mix of upper and lower case, is taken for a challenge page. *)
Theorem challenge_marker_found (a m b : text) :
  In (lower m)
     [ str "attention required! | cloudflare"; str "please turn javascript on";
       str "please enable cookies"; str "ray id:"; str "cdn-cgi" ] ->
  is_cloudflare_challenge (a ++ m ++ b) = true.
Proof.
  intros Hin. unfold is_cloudflare_challenge. apply existsb_exists.
  exists (lower m). split; [exact Hin|].
  unfold lower. rewrite !map_app. apply contains_later, contains_here.
Qed.

Lemma challenge_marker_found_witness :
  is_cloudflare_challenge (str "<html>error 1020 " ++ str "Ray ID:" ++ str " 7f3</html>") = true.
Proof. apply challenge_marker_found. vm_compute. tauto. Defined.

End RetryMore.

(** ** Further properties of the dispatcher and of [/api/analyze] *)

Module DispatcherMore.
Import Py PyStr Dispatcher.

Section WithUpstream.
Variable respond : nat -> text -> result string.

Lemma task_lookup (chunks : list text) i c :
  chunks !! i = Some c ->
  imap (fun i chunk => process_chunk respond chunk i) chunks !! i =
  Some (process_chunk respond c i).
Proof. intros H. rewrite list_lookup_imap, H. reflexivity. Qed.

Lemma process_chunk_raises c i e :
  process_chunk respond c i = Raise e <-> respond i c = Raise e.
Proof.
  unfold process_chunk. destruct (respond i c) as [a|e']; cbn [mbind result_bind mret result_ret].
  - split; discriminate.
  - split; intros [= <-]; reflexivity.
Qed.

(** A gather that has a failing task among those that complete ends with
    the exception of a failing task. *)
Lemma complete_raises (tasks : list (result ChunkResult)) i e order :
  i ∈ order -> tasks !! i = Some (Raise e) ->
  forall slots, exists j e', tasks !! j = Some (Raise e') /\
                             complete tasks order slots = Raise e'.
Proof.
  intros Hin Hi. induction order as [|j order IH]; intros slots.
  - apply elem_of_nil in Hin. contradiction.
  - cbn [complete]. destruct (tasks !! j) as [[r|e']|] eqn:Hj.
    + apply elem_of_cons in Hin. destruct Hin as [->|Hin]; [congruence|].
      apply (IH Hin).
    + exists j, e'. split; [exact Hj | reflexivity].
    + apply elem_of_cons in Hin. destruct Hin as [->|Hin]; [congruence|].
      apply (IH Hin).
Qed.

End WithUpstream.

(** X20.  Partial success is not possible: when the request of some chunk
    raises, the whole dispatch raises, whatever the completion order,
    and what it raises was raised by the request of one of the chunks. *)
Theorem chunk_results_all_or_nothing
  (respond : nat -> text -> result string) (chunks : list text) (order : list nat)
  (i : nat) (c : text) (e : exn) :
  order ≡ₚ seq 0 (length chunks) ->
  chunks !! i = Some c ->
  respond i c = Raise e ->
  exists j c' e',
    chunks !! j = Some c' /\ respond j c' = Raise e' /\
    chunk_results respond chunks order = Raise e'.
Proof.
  intros Hperm Hc He. unfold chunk_results.
  destruct (1 <? length chunks)%nat eqn:Hmany.
  - set (tasks := imap (fun i chunk => process_chunk respond chunk i) chunks).
    assert (Hi : tasks !! i = Some (Raise e)).
    { unfold tasks. rewrite (task_lookup respond _ _ _ Hc). f_equal.
      apply process_chunk_raises, He. }
    assert (Hin : i ∈ order).
    { rewrite Hperm. apply elem_of_seq. apply lookup_lt_Some in Hc. lia. }
    destruct (complete_raises tasks i e order Hin Hi (replicate (length tasks) None))
      as (j & e' & Hj & Hcomp).
    unfold tasks in Hj. rewrite list_lookup_imap in Hj.
    destruct (chunks !! j) as [c'|] eqn:Hcj; [|discriminate].
    cbn in Hj. injection Hj as Hj. apply process_chunk_raises in Hj.
    exists j, c', e'. split; [exact Hcj|]. split; [exact Hj|].
    unfold gather. fold tasks. rewrite Hcomp. reflexivity.
  - apply Nat.ltb_ge in Hmany. destruct chunks as [|c0 [|c1 rest]]; cbn in Hmany; try lia.
    + discriminate.
    + destruct i as [|i]; [|discriminate]. injection Hc as <-.
      exists 0%nat, c0, e. split; [reflexivity|]. split; [exact He|].
      unfold process_chunk. rewrite He. reflexivity.
Qed.

Lemma chunk_results_all_or_nothing_witness :
  exists j c' e',
    [str "one."; str "two."] !! j = Some c' /\
    (fun (i : nat) (_ : text) => if (i =? 1)%nat then Raise IndexError else Ok ""%string)
      j c' = Raise e' /\
    chunk_results
      (fun (i : nat) (_ : text) => if (i =? 1)%nat then Raise IndexError else Ok ""%string)
      [str "one."; str "two."] [1; 0]%nat = Raise e'.
Proof.
  apply (chunk_results_all_or_nothing
           (fun (i : nat) (_ : text) => if (i =? 1)%nat then Raise IndexError else Ok ""%string)
           [str "one."; str "two."] [1; 0]%nat 1%nat (str "two.") IndexError).
  - apply perm_swap.
  - reflexivity.
  - reflexivity.
Defined.

End DispatcherMore.

Module ComplianceMore.
Import Py PyStr Segmenter Dispatcher Compliance.

#[local] Arguments is_space : simpl never.

Lemma prepare_blank tp : has_content tp = false -> prepare tp = [].
Proof.
  intros H. unfold prepare, strip.
  rewrite SegmenterMore.lstrip_no_content
    by (rewrite SegmenterFacts.has_content_replace; exact H).
  reflexivity.
Qed.

Lemma length_test_false (tp : text) : len tp <= 4000 -> (len tp >? 4000) = false.
Proof. intros H. rewrite Z.gtb_ltb. apply Z.ltb_ge. exact H. Qed.

(** X21.  A description without any non-whitespace character, the empty
    one included, passes the input checks and then fails with status 500:
    there is no chunk, and taking the first one raises [IndexError]. *)
Theorem analyze_compliance_blank
  (respond : nat -> text -> result string) (order : list nat) (str_exn : exn -> string)
  (request : AnalyzeRequest) :
  len (technicalProcess request) <= 4000 ->
  has_content (technicalProcess request) = false ->
  analyze_compliance true respond order str_exn request =
  Raise (HTTPException 500 ("An unexpected error occurred: " +:+ str_exn IndexError)).
Proof.
  intros Hlen Hblank. unfold analyze_compliance. cbn [negb].
  rewrite (length_test_false _ Hlen). unfold analyze.
  rewrite (prepare_blank _ Hblank). reflexivity.
Qed.

Lemma analyze_compliance_blank_witness :
  analyze_compliance true (fun _ _ => Ok ""%string) [] Samples.no_text
    {| technicalProcess := [sp; nl; sp]; timeout := Fin 30 |} =
  Raise (HTTPException 500
           ("An unexpected error occurred: " +:+ Samples.no_text IndexError)).
Proof.
  apply analyze_compliance_blank.
  - vm_compute. discriminate.
  - reflexivity.
Defined.

(** Tasks that all raise leave the slots of a gather as they were. *)
Lemma complete_all_raise (tasks : list (result ChunkResult)) e order :
  (forall i x, tasks !! i = Some x -> x = Raise e) ->
  forall slots, complete tasks order slots = Ok slots \/
                complete tasks order slots = Raise e.
Proof.
  intros Htasks. induction order as [|i order IH]; intros slots; [left; reflexivity|].
  cbn [complete]. destruct (tasks !! i) as [x|] eqn:Hi; [|apply IH].
  rewrite (Htasks i x Hi). right. reflexivity.
Qed.

Lemma omap_replicate_none {A} n : omap id (replicate n (@None A)) = [].
Proof. induction n as [|n IH]; [reflexivity | exact IH]. Qed.

(** With every request failing in the same way, nothing is analyzed. *)
Lemma all_analyses_fail (respond : nat -> text -> result string) e chunks order :
  (forall i c, respond i c = Raise e) ->
  all_analyses respond chunks order = Raise IndexError \/
  all_analyses respond chunks order = Raise e \/
  all_analyses respond chunks order = Ok [].
Proof.
  intros Hfail. unfold all_analyses, chunk_results.
  destruct (1 <? length chunks)%nat.
  - set (tasks := imap (fun i chunk => process_chunk respond chunk i) chunks).
    assert (Htasks : forall i x, tasks !! i = Some x -> x = Raise e).
    { intros i x. unfold tasks. rewrite list_lookup_imap.
      destruct (chunks !! i) as [c|]; [|discriminate].
      cbn. unfold process_chunk. rewrite Hfail. intros [= <-]. reflexivity. }
    unfold gather.
    destruct (complete_all_raise tasks e order Htasks (replicate (length tasks) None))
      as [-> | ->].
    + right; right. rewrite omap_replicate_none. reflexivity.
    + right; left. reflexivity.
  - destruct chunks as [|c rest]; [left; reflexivity|].
    right; left. unfold process_chunk. rewrite Hfail. reflexivity.
Qed.

(** X22.  As the module is, [/api/analyze] never returns a report: its
    completion requests end with [NameError] before they are sent, and
    the endpoint answers 400 (exactly when it is configured and the
    description is longer than 4000 characters) or 500. *)
Theorem analyze_compliance_statuses
  (configured : bool) (py_repr : Sentinel.json -> string)
  (upstream : nat -> text -> nat -> Retry.transport)
  (content_of : Retry.Response -> result string) (order : list nat)
  (str_exn : exn -> string) (request : AnalyzeRequest) :
  let r := analyze_compliance configured
             (fun i chunk => request_completion py_repr (upstream i chunk) content_of)
             order str_exn request in
  (http_status r = Some 400 \/ http_status r = Some 500) /\
  (http_status r = Some 400 <->
   configured = true /\ 4000 < len (technicalProcess request)).
Proof.
  intros r. subst r. unfold analyze_compliance.
  destruct configured; cbn [negb].
  2:{ split; [right; reflexivity|]. split; [discriminate | intros [H _]; discriminate]. }
  destruct (len (technicalProcess request) >? 4000) eqn:Hlong.
  - rewrite Z.gtb_ltb in Hlong. apply Z.ltb_lt in Hlong.
    split; [left; reflexivity|]. split; auto.
  - rewrite Z.gtb_ltb in Hlong. apply Z.ltb_ge in Hlong.
    assert (H500 : http_status
              match analyze
                      (fun i chunk => request_completion py_repr (upstream i chunk) content_of)
                      order request with
              | Ok summary => Ok summary
              | Raise (HTTPException status_code detail) =>
                  Raise (HTTPException status_code detail)
              | Raise e =>
                  Raise (HTTPException 500 ("An unexpected error occurred: " +:+ str_exn e))
              end = Some 500).
    { unfold analyze.
      destruct (all_analyses_fail
                  (fun i chunk => request_completion py_repr (upstream i chunk) content_of)
                  (NameError "REQUEST_TIMEOUT")
                  (split_into_chunks (prepare (technicalProcess request)) MAX_CHUNK_SIZE)
                  order (fun i c => eq_refl)) as [-> | [-> | ->]]; reflexivity. }
    split; [right; exact H500|]. rewrite H500.
    split; [discriminate | intros [_ H]; lia].
Qed.

(** *** The clean-up before segmenting *)

Lemma has_content_collapse s : forall b, has_content (collapse_go b s) = has_content s.
Proof.
  induction s as [|c s IH]; intros b; [reflexivity|].
  cbn [collapse_go]. destruct (is_space c) eqn:Hc.
  - destruct b; cbn [has_content existsb]; rewrite ?Hc; fold (has_content s);
      fold (has_content (collapse_go true s)); rewrite IH; reflexivity.
  - cbn [has_content existsb]. rewrite Hc. fold (has_content s).
    fold (has_content (collapse_go false s)). rewrite IH. reflexivity.
Qed.

Lemma starts_ws_collapse s : starts_ws (collapse_go false s) = starts_ws s.
Proof.
  destruct s as [|c s]; [reflexivity|].
  cbn [collapse_go]. destruct (is_space c) eqn:Hc; cbn [starts_ws]; [|reflexivity].
  rewrite Hc. reflexivity.
Qed.

Lemma kept_collapse s : forall b, kept (collapse_go b s) = kept s.
Proof.
  induction s as [|c s IH]; intros b; [reflexivity|].
  cbn [collapse_go]. destruct (is_space c) eqn:Hc.
  - destruct b; cbn [kept]; rewrite ?Hc; [apply IH|].
    change (is_space sp) with true. cbv iota. apply IH.
  - cbn [kept]. rewrite Hc, starts_ws_collapse, has_content_collapse, IH. reflexivity.
Qed.

Lemma has_content_rstrip s : has_content (rstrip s) = has_content s.
Proof.
  induction s as [|c s IH]; [reflexivity|].
  rewrite SegmenterFacts.rstrip_cons. cbn [has_content existsb]. fold (has_content s).
  destruct (has_content s) eqn:Hs.
  - cbn [has_content existsb]. fold (has_content (rstrip s)). rewrite IH. reflexivity.
  - rewrite orb_false_r. destruct (is_space c) eqn:Hc; [reflexivity|].
    cbn. rewrite Hc. reflexivity.
Qed.

Lemma kept_rstrip s : kept (rstrip s) = kept s.
Proof.
  induction s as [|c s IH]; [reflexivity|].
  rewrite SegmenterFacts.rstrip_cons. cbn [kept].
  destruct (has_content s) eqn:Hs.
  - cbn [kept]. rewrite IH, (SegmenterFacts.starts_ws_rstrip _ Hs), has_content_rstrip, Hs.
    reflexivity.
  - rewrite andb_false_r, (SegmenterFacts.kept_no_content _ Hs).
    destruct (is_space c) eqn:Hc; [reflexivity|].
    cbn [kept starts_ws]. rewrite Hc, andb_false_r. reflexivity.
Qed.

Lemma kept_prepare tp : kept (prepare tp) = kept tp.
Proof.
  unfold prepare, collapse_ws, strip.
  rewrite kept_collapse, kept_rstrip, SegmenterFacts.kept_lstrip.
  apply SegmenterFacts.kept_replace.
Qed.

(** X24.  The clean-up the endpoint applies before segmenting (line
    breaks to blanks, trimming, runs of whitespace to one blank) loses
    nothing: the chunks of the cleaned text hold exactly the characters
    the segmenter keeps of the original description. *)
Theorem prepared_chunks_keep_content (tp : text) (ml : Z) :
  Permutation (flat (split_into_chunks (prepare tp) ml)) (kept tp).
Proof.
  unfold split_into_chunks. rewrite <- kept_prepare, <- SegmenterFacts.sentences_kept.
  apply SegmenterFacts.pack_perm.
Qed.

End ComplianceMore.

(** ** Properties of the policy search endpoint *)

Module SearchMore.
Import Py PyStr Ranker Search.

(** X25.  Whatever status other than 200 the search service answers
    with, the endpoint answers 500: the exception raised for the status
    is caught by the handler for all exceptions. *)
Theorem search_policies_upstream_error
  (configured : bool) (extract_domain : string -> string) (str_exn : exn -> string)
  (request : PolicySearchRequest) (status_code : Z)
  (results : result (list SearchResult)) :
  status_code <> 200 ->
  http_status (search_policies configured extract_domain str_exn request
                 (Answers status_code results)) = Some 500.
Proof.
  intros Hs. unfold search_policies, search.
  destruct configured; cbn [negb]; [|reflexivity].
  destruct (Z.eqb_spec status_code 200) as [E|_]; [contradiction|]. reflexivity.
Qed.

Lemma search_policies_upstream_error_witness :
  http_status (search_policies true id Samples.no_text
                 {| query := "gdpr"; domains := ["gov"%string] |}
                 (Answers 429 (Ok []))) = Some 500.
Proof. apply search_policies_upstream_error. discriminate. Defined.

(** X26.  The endpoint returns a response exactly when the key is
    configured and the service answers 200 with readable results; the
    response then holds the ranked policies and repeats the query and
    the domains.  Every other outcome is status 500 or 504. *)
Theorem search_policies_outcome
  (configured : bool) (extract_domain : string -> string) (str_exn : exn -> string)
  (request : PolicySearchRequest) (up : upstream) :
  let r := search_policies configured extract_domain str_exn request up in
  (forall response,
     r = Ok response <->
     configured = true /\
     exists data, up = Answers 200 (Ok data) /\
                  response = {| policies_of := policies extract_domain data;
                                query_of := query request;
                                domains_of := domains request |}) /\
  ((exists response, r = Ok response) \/ http_status r = Some 500 \/
   http_status r = Some 504).
Proof.
  intros r. subst r. unfold search_policies, search.
  destruct configured; cbn [negb].
  2:{ split; [|right; left; reflexivity].
      intros response. split; [discriminate | intros [H _]; discriminate]. }
  destruct up as [e|status results].
  - split.
    + intros response. split.
      * destruct e; discriminate.
      * intros [_ (data & H & _)]. discriminate.
    + destruct e; (right; left; reflexivity) || (right; right; reflexivity).
  - destruct (Z.eqb_spec status 200) as [->|Hs]; cbn [negb].
    + destruct results as [data|e]; cbn [mbind result_bind mret result_ret].
      * split; [|left; eauto]. intros response. split.
        -- intros [= <-]. split; [reflexivity|]. eauto.
        -- intros [_ (data' & [= <-] & ->)]. reflexivity.
      * split.
        -- intros response. split.
           ++ destruct e; discriminate.
           ++ intros [_ (data & H & _)]. discriminate.
        -- destruct e; (right; left; reflexivity) || (right; right; reflexivity).
    + split; [|right; left; reflexivity].
      intros response. split; [discriminate|].
      intros [_ (data & [= E _] & _)]. contradiction.
Qed.

End SearchMore.

(** ** Further properties of the response parser *)

Module ParserMore.
Import PyStr Parser Notions.

(** The loop body by the kind of line. *)
Lemma line_step_cases st raw :
  (starts_regulation raw = false /\ truthy (strip raw) = false /\ line_step st raw = st) \/
  (starts_regulation raw = false /\
   exists sec, line_step st raw =
               {| result := result st; current_section := Some sec;
                  current_regulation := current_regulation st |}) \/
  (starts_regulation raw = true /\
   line_step st raw =
   {| result := append_regulation (result st) (current_regulation st);
      current_section := current_section st;
      current_regulation := Some (fresh_regulation raw) |}) \/
  (starts_regulation raw = false /\ line_step st raw = item_step st (strip raw)).
Proof.
  unfold line_step, starts_regulation, fresh_regulation, is_header, names_regulation.
  set (line := strip raw).
  set (a := contains (str "Technical Requirements:") line).
  set (b := contains (str "Technical Implementation:") line).
  set (c := contains (str "Next Steps:") line).
  set (d := contains (str "Recommended Steps:") line).
  set (k := any_in _ line).
  destruct (truthy line); cbn [negb andb]; [|left; auto].
  destruct a; cbn [orb negb andb]; [right; left; eauto|].
  destruct b; cbn [orb negb andb]; [right; left; eauto|].
  destruct c; cbn [orb negb andb]; [right; left; eauto|].
  destruct d; cbn [orb negb andb]; [right; left; eauto|].
  destruct k.
  - right; right; left. split; [reflexivity|].
    destruct (split_once colon line) as [before after]. reflexivity.
  - right; right; right. split; reflexivity.
Qed.

Lemma opened_final st :
  regulations (append_regulation (result st) (current_regulation st)) = opened st.
Proof.
  unfold opened, append_regulation.
  destruct (current_regulation st); [reflexivity|]. rewrite app_nil_r. reflexivity.
Qed.

Lemma heading_fresh raw : heading (fresh_regulation raw) = entry_of raw.
Proof.
  unfold heading, fresh_regulation, entry_of.
  destruct (split_once colon (strip raw)) as [before after]. reflexivity.
Qed.

(** A line that opens nothing leaves names and priorities alone. *)
Lemma item_step_headings st line :
  map heading (opened (item_step st line)) = map heading (opened st).
Proof.
  unfold item_step. destruct (negb (truthy (strip_chars (str "- ") line))); [reflexivity|].
  destruct (current_section st) as [[|]|]; try reflexivity.
  destruct (current_regulation st) as [reg|] eqn:Hreg; [|reflexivity].
  destruct (split_once colon line) as [before after].
  unfold opened. cbn [result current_regulation]. rewrite Hreg, !map_app.
  destruct (truthy (relevance reg)), after; reflexivity.
Qed.

Lemma line_step_headings st raw :
  map heading (opened (line_step st raw)) =
  map heading (opened st) ++ (if starts_regulation raw then [entry_of raw] else []).
Proof.
  destruct (line_step_cases st raw)
    as [(-> & _ & ->)|[(-> & sec & ->)|[(-> & ->)|(-> & ->)]]].
  - rewrite app_nil_r. reflexivity.
  - rewrite app_nil_r. reflexivity.
  - unfold opened at 1. cbn [result current_regulation].
    rewrite opened_final, map_app. cbn [map]. rewrite heading_fresh. reflexivity.
  - rewrite app_nil_r. apply item_step_headings.
Qed.

Lemma loop_headings lines : forall st,
  map heading (opened (fold_left line_step lines st)) =
  map heading (opened st) ++ map entry_of (List.filter starts_regulation lines).
Proof.
  induction lines as [|raw lines IH]; intros st.
  - cbn. rewrite app_nil_r. reflexivity.
  - cbn [fold_left List.filter]. rewrite IH, line_step_headings.
    destruct (starts_regulation raw); cbn [map]; rewrite <- app_assoc; reflexivity.
Qed.

(** X27.  The regulations of the report are, in document order, those
    opened by the lines that name a regulation (and are not section
    headers): none is lost and none invented, and each has the name and
    the priority its opening line gives it. *)
Theorem regulations_in_document_order (analysis : text) :
  map heading (regulations (parse_compliance_analysis analysis)) =
  map entry_of (List.filter starts_regulation (lines_of analysis)).
Proof.
  unfold parse_compliance_analysis. cbv zeta. rewrite opened_final, loop_headings.
  reflexivity.
Qed.

(** *** Once a section header was seen *)

Lemma item_step_in_section st line :
  current_section st <> None ->
  opened (item_step st line) = opened st /\
  current_section (item_step st line) = current_section st.
Proof.
  intros Hsec. unfold item_step.
  destruct (negb (truthy (strip_chars (str "- ") line))); [auto|].
  destruct (current_section st) as [[|]|]; [auto | auto | congruence].
Qed.

Lemma line_step_in_section st raw :
  current_section st <> None ->
  opened (line_step st raw) =
  opened st ++ (if starts_regulation raw then [fresh_regulation raw] else []) /\
  current_section (line_step st raw) <> None.
Proof.
  intros Hsec.
  destruct (line_step_cases st raw)
    as [(-> & _ & ->)|[(-> & sec & ->)|[(-> & ->)|(-> & ->)]]].
  - rewrite app_nil_r. auto.
  - rewrite app_nil_r. split; [reflexivity | discriminate].
  - split; [|exact Hsec]. unfold opened at 1. cbn [result current_regulation].
    rewrite opened_final. reflexivity.
  - destruct (item_step_in_section st (strip raw) Hsec) as [-> ->].
    rewrite app_nil_r. auto.
Qed.

(** X28.  Sections are never left: once a section header has been seen,
    the regulations known so far stay as they are, and every regulation
    opened afterwards is exactly what its opening line gives, with no
    requirements. *)
Theorem regulations_after_header (lines : list text) (st : state) :
  current_section st <> None ->
  opened (fold_left line_step lines st) =
  opened st ++ map fresh_regulation (List.filter starts_regulation lines).
Proof.
  revert st. induction lines as [|raw lines IH]; intros st Hsec.
  - cbn. rewrite app_nil_r. reflexivity.
  - cbn [fold_left List.filter].
    destruct (line_step_in_section st raw Hsec) as [Hopen Hsec'].
    rewrite (IH _ Hsec'), Hopen.
    destruct (starts_regulation raw); cbn [map]; rewrite <- app_assoc; reflexivity.
Qed.

Lemma regulations_after_header_witness :
  opened (fold_left line_step [str "HIPAA: health data"; str "- audit logs"]
            (line_step initial (str "Next Steps:"))) =
  opened (line_step initial (str "Next Steps:")) ++
  map fresh_regulation
    (List.filter starts_regulation [str "HIPAA: health data"; str "- audit logs"]).
Proof. apply regulations_after_header. vm_compute. discriminate. Defined.

(** *** Where the items come from *)

Lemma items_from_item_step lines st raw :
  In raw lines -> items_from lines st -> items_from lines (item_step st (strip raw)).
Proof.
  intros Hin (Ht & Hs & Hr). unfold item_step.
  destruct (truthy (strip_chars (str "- ") (strip raw))) eqn:Hitem; cbn [negb];
    [|repeat split; assumption].
  assert (Hi : item_of lines (strip_chars (str "- ") (strip raw))).
  { split; [|eauto]. intros E. rewrite E in Hitem. discriminate. }
  destruct (current_section st) as [[|]|].
  - repeat split; cbn [result technicalRequirements nextSteps]; try assumption.
    apply Forall_app. split; [exact Ht|]. constructor; [exact Hi | constructor].
  - repeat split; cbn [result technicalRequirements nextSteps]; try assumption.
    apply Forall_app. split; [exact Hs|]. constructor; [exact Hi | constructor].
  - destruct (current_regulation st) as [reg|] eqn:Hreg; [|repeat split; assumption].
    destruct (split_once colon (strip raw)) as [before after].
    unfold opened in Hr. rewrite Hreg in Hr. apply Forall_app in Hr.
    destruct Hr as [Hregs Hcur]. inversion Hcur as [|? ? Hreqs _]; subst.
    repeat split; cbn [result]; try assumption.
    unfold opened. cbn [result current_regulation].
    apply Forall_app. split; [exact Hregs|]. constructor; [|constructor].
    destruct (truthy (relevance reg)), after; cbn [requirements]; try exact Hreqs;
      (apply Forall_app; split; [exact Hreqs|]; constructor; [exact Hi | constructor]).
Qed.

Lemma items_from_line_step lines st raw :
  In raw lines -> items_from lines st -> items_from lines (line_step st raw).
Proof.
  intros Hin Hst.
  destruct (line_step_cases st raw)
    as [(_ & _ & ->)|[(_ & sec & ->)|[(_ & ->)|(_ & ->)]]].
  - exact Hst.
  - exact Hst.
  - destruct Hst as (Ht & Hs & Hr). repeat split.
    + destruct (current_regulation st); exact Ht.
    + destruct (current_regulation st); exact Hs.
    + unfold opened at 1. cbn [result current_regulation]. rewrite opened_final.
      apply Forall_app. split; [exact Hr|]. constructor; [|constructor].
      unfold fresh_regulation. destruct (split_once colon (strip raw)). constructor.
  - apply items_from_item_step; assumption.
Qed.

Lemma items_from_loop lines part : forall st,
  (forall raw, In raw part -> In raw lines) ->
  items_from lines st -> items_from lines (fold_left line_step part st).
Proof.
  induction part as [|raw part IH]; intros st Hsub Hst; [exact Hst|].
  cbn [fold_left]. apply IH.
  - intros r Hr. apply Hsub. right. exact Hr.
  - apply items_from_line_step; [apply Hsub; left; reflexivity | exact Hst].
Qed.

(** X29.  No item of the report is empty, and each is a line of the
    input freed of the dashes and blanks at its ends: this holds of the
    technical requirements, of the next steps and of the requirements of
    every regulation. *)
Theorem items_come_from_lines (analysis : text) :
  let report := parse_compliance_analysis analysis in
  let lines := lines_of analysis in
  Forall (item_of lines) (technicalRequirements report) /\
  Forall (item_of lines) (nextSteps report) /\
  Forall (fun r => Forall (item_of lines) (requirements r)) (regulations report).
Proof.
  intros report lines. subst report. unfold parse_compliance_analysis. cbv zeta.
  fold lines.
  assert (H : items_from lines (fold_left line_step lines initial)).
  { apply items_from_loop; [auto|]. repeat split; constructor. }
  destruct H as (Ht & Hs & Hr). rewrite opened_final.
  repeat split; try exact Hr;
    destruct (current_regulation (fold_left line_step lines initial)); assumption.
Qed.

(** *** Blank input *)

Lemma strip_blank s : Segmenter.has_content s = false -> strip s = [].
Proof. intros H. unfold strip. rewrite (SegmenterMore.lstrip_no_content _ H). reflexivity. Qed.

Lemma line_step_blank st raw : Segmenter.has_content raw = false -> line_step st raw = st.
Proof. intros H. unfold line_step. rewrite (strip_blank _ H). reflexivity. Qed.

Lemma split_on_go_blank sep s : forall skip cur,
  Segmenter.has_content s = false -> Segmenter.has_content cur = false ->
  Forall (fun p => Segmenter.has_content p = false) (split_on_go sep skip cur s).
Proof.
  induction s as [|c s IH]; intros skip cur Hs Hcur.
  - cbn [split_on_go]. constructor; [|constructor].
    rewrite SegmenterFacts.has_content_rev. exact Hcur.
  - cbn [Segmenter.has_content existsb] in Hs. apply orb_false_iff in Hs.
    destruct Hs as [Hc Hs]. cbn [split_on_go]. destruct skip as [|k].
    + destruct (prefix_of sep (c :: s)).
      * constructor; [rewrite SegmenterFacts.has_content_rev; exact Hcur|].
        apply IH; [exact Hs | reflexivity].
      * apply IH; [exact Hs|]. cbn [Segmenter.has_content existsb].
        rewrite Hc. exact Hcur.
    + apply IH; assumption.
Qed.

Lemma lines_of_blank analysis :
  Segmenter.has_content analysis = false ->
  Forall (fun l => Segmenter.has_content l = false) (lines_of analysis).
Proof.
  intros H. unfold lines_of.
  pose proof (split_on_go_blank [nl; nl] analysis O [] H eq_refl) as Hsec.
  fold (split_on [nl; nl] analysis) in Hsec.
  induction Hsec as [|section sections Hsection _ IH]; [constructor|].
  cbn [flat_map]. apply Forall_app. split; [|exact IH].
  rewrite (strip_blank _ Hsection). repeat constructor.
Qed.

Lemma loop_blank lines : forall st,
  Forall (fun l => Segmenter.has_content l = false) lines ->
  fold_left line_step lines st = st.
Proof.
  induction lines as [|raw lines IH]; intros st H; [reflexivity|].
  inversion H as [|? ? Hraw Hrest]; subst. cbn [fold_left].
  rewrite (line_step_blank _ _ Hraw). apply IH, Hrest.
Qed.

(** X30.  An answer without any non-whitespace character, the empty one
    included, gives the report with no regulation, no technical
    requirement and no next step. *)
Theorem parse_blank (analysis : text) :
  Segmenter.has_content analysis = false ->
  parse_compliance_analysis analysis = empty_report.
Proof.
  intros H. unfold parse_compliance_analysis. cbv zeta.
  rewrite (loop_blank _ _ (lines_of_blank _ H)). reflexivity.
Qed.

Lemma parse_blank_witness :
  parse_compliance_analysis [nl; nl; sp; nl] = empty_report.
Proof. apply parse_blank. reflexivity. Defined.

End ParserMore.
